(** * The IVT notebook ([notebooks/1_compute_IVT.ipynb]) as a Rocq model

    The notebook reads the eastward and northward vapour fluxes, computes
    their magnitude [ivt = np.ma.sqrt(u*u + v*v)], saves it and plots one
    time slice.

    - Array elements are IEEE binary64 numbers (numpy's [float64]), here
      Rocq's primitive floats, whose operations are the correctly rounded
      ones of the standard.
    - A cell of a masked array is an [option float], [None] when masked.
    - Python objects (arrays, axis lists, fields) live in a store and are
      referred to by their location, so that sharing is visible.
    - A run is a computation in a state and exception monad; the state
      holds the store, the files, and the trace of what was done.
    - The functions of [ipart.utils] that the notebook calls are not among
      the sources; they are modelled from the specification and marked so. *)

From Stdlib Require Import Floats ZArith Lia String.
From stdpp Require Import base option list gmap strings.

(** ** Binary64 numbers *)

Module F64.

(** Zero or above, or not a number: what a square can be. *)
Definition nonneg (x : spec_float) : Prop :=
  match x with
  | S754_zero false | S754_infinity false | S754_finite false _ _ | S754_nan => True
  | _ => False
  end.

(** The record of a right shift describes the integer [N] shifted by
    [k] bits: the kept part, the last bit shifted out, and whether
    anything lies below it. *)
Definition represents (N k : Z) (mrs : shr_record) : Prop :=
  (0 <= shr_m mrs)%Z /\
  exists t : Z,
    (N = shr_m mrs * 2 ^ k + (if shr_r mrs then 2 ^ (k - 1) else 0) + t)%Z /\
    (0 <= t < 2 ^ (k - 1))%Z /\ (shr_s mrs = true <-> (0 < t)%Z).

(** The numbers whose square is a normal binary64 number: between
    2^-511 and 2^512 in absolute value. *)
Definition square_is_normal (x : float) : bool :=
  (0x1p-511 <=? abs x)%float && (abs x <? 0x1p+512)%float.

(** Zero, or a finite number that is not negative and lies below 2^k. *)
Definition small (k : Z) (x : spec_float) : Prop :=
  match x with
  | S754_zero false => True
  | S754_finite false m e => (Zpos (digits2_pos m) + e <= k /\ e <= 971)%Z
  | _ => False
  end.

End F64.

(** ** numpy arrays with a mask

    A field's data has three dimensions (time, latitude, longitude).  An
    array is its shape and its cells; a cell is [None] when it is masked.
    Arrays that carry no mask are the ones whose cells are all [Some _]. *)

Definition cell : Type := option float.

Record ndarray : Type := {
  shape : nat * nat * nat;
  item : nat -> nat -> nat -> cell
}.

Definition in_range (s : nat * nat * nat) (t i j : nat) : Prop :=
  let '(nt, ni, nj) := s in t < nt /\ i < ni /\ j < nj.

(** numpy's broadcasting rule for one dimension: the sizes agree or one of
    them is 1. *)
Definition broadcast_dim (m n : nat) : option nat :=
  if (m =? n)%nat then Some m
  else if (m =? 1)%nat then Some n
  else if (n =? 1)%nat then Some m
  else None.

Definition broadcast_shapes (s1 s2 : nat * nat * nat) : option (nat * nat * nat) :=
  let '(t1, i1, j1) := s1 in
  let '(t2, i2, j2) := s2 in
  nt ← broadcast_dim t1 t2;
  ni ← broadcast_dim i1 i2;
  nj ← broadcast_dim j1 j2;
  Some (nt, ni, nj).

(** A dimension of size 1 is read at index 0 whatever the result index. *)
Definition bcast (n k : nat) : nat := if (n =? 1)%nat then 0 else k.

Definition item_bcast (a : ndarray) (t i j : nat) : cell :=
  let '(nt, ni, nj) := shape a in
  item a (bcast nt t) (bcast ni i) (bcast nj j).

(** [numpy.ma] binary operation on one pair of cells: the mask of the
    result is the logical or of the masks of the operands. *)
Definition masked_binary_cell (f : float -> float -> float) (a b : cell) : cell :=
  match a, b with
  | Some x, Some y => Some (f x y)
  | _, _ => None
  end.

(** [a * b] and [a + b]: [None] stands for numpy's [ValueError]
    ("operands could not be broadcast together"). *)
Definition masked_binary (f : float -> float -> float) (a b : ndarray)
  : option ndarray :=
  s ← broadcast_shapes (shape a) (shape b);
  Some {| shape := s;
          item := fun t i j =>
            masked_binary_cell f (item_bcast a t i j) (item_bcast b t i j) |}.

Definition multiply : ndarray -> ndarray -> option ndarray :=
  masked_binary PrimFloat.mul.

Definition add : ndarray -> ndarray -> option ndarray :=
  masked_binary PrimFloat.add.

(** [np.ma.sqrt] on one cell.  It is a domained unary operation of
    [numpy.ma] (domain: greater or equal 0), whose mask is built as
    [m = ~isfinite(result); m |= domain(d); m |= getmask(a)]: besides the
    operand's mask, the result is masked where the computed root is not
    finite and where the operand is below 0. *)
Definition ma_sqrt_cell (c : cell) : cell :=
  match c with
  | None => None
  | Some d =>
      let r := PrimFloat.sqrt d in
      if negb (is_finite r) || (d <? 0)%float then None else Some r
  end.

Definition ma_sqrt (a : ndarray) : ndarray :=
  {| shape := shape a; item := fun t i j => ma_sqrt_cell (item a t i j) |}.

(** [a[idx]] on the first axis.  The result is the two-dimensional slice;
    [None] stands for [IndexError]. *)
Record slice : Type := {
  slice_shape : nat * nat;
  slice_item : nat -> nat -> cell
}.

Definition getitem (a : ndarray) (idx : nat) : option slice :=
  let '(nt, ni, nj) := shape a in
  if (idx <? nt)%nat then Some {| slice_shape := (ni, nj); slice_item := item a idx |}
  else None.

(** ** The magnitude expression

    [np.ma.sqrt(uflux.data*uflux.data + vflux.data*vflux.data)] on the two
    data arrays. *)
Definition ivt_cell (a b : cell) : cell :=
  ma_sqrt_cell
    (masked_binary_cell PrimFloat.add
       (masked_binary_cell PrimFloat.mul a a)
       (masked_binary_cell PrimFloat.mul b b)).

Definition ivt_data (u v : ndarray) : option ndarray :=
  uu ← multiply u u;
  vv ← multiply v v;
  s ← add uu vv;
  Some (ma_sqrt s).

(** ** Python objects, files and the trace of a run *)

Definition loc : Type := nat.

(** The coordinate axes of a field, in the order (time, latitude,
    longitude); each is a sequence of coordinate values. *)
Record axes : Type := {
  time_axis : list float;
  latitude_axis : list float;
  longitude_axis : list float
}.

(** Modelled from the spec: [ipart.utils.funcs.NCVAR], the class of a
    field, is not among the sources.  A field packages a data array, an
    identifier, the axes and a mapping of descriptive attributes; the array
    and the axis list are references to objects of their own. *)
Record NCVAR : Type := {
  data : loc;
  var_id : string;
  axislist : loc;
  attributes : gmap string string
}.

Inductive pyobj : Type :=
| ObjArray (a : ndarray)
| ObjAxes (ax : axes)
| ObjNCVAR (v : NCVAR).

(** One variable of a gridded-data file, and a file as its variables by
    identifier. *)
Record ncvariable : Type := {
  nc_data : ndarray;
  nc_axes : axes;
  nc_attrs : gmap string string
}.

Inductive printed : Type :=
| PStr (s : string)
| PInfo (v : string) (sh : nat * nat * nat) (ax : axes) (attrs : gmap string string)
| PAxis (values : list float).

Inductive event : Type :=
| Exists (path : string)
| Open (path : string)
| Print (p : printed)
| Create (path : string)
| Figure
| AddSubplot (nrows ncols index : nat)
| Isofill (vii : slice) (num zero split : nat)
| Plot2 (vii : slice) (time_str : float) (title : string) (xarray yarray : list float)
| Show.

Inductive exn : Type :=
| Exception (msg : string)
| ValueError
| IndexError
| AttributeError
| FileNotFoundError (path : string)
| VariableNotFound (v : string).

Record state : Type := {
  heap : list pyobj;
  files : gmap string (gmap string ncvariable);
  trace : list event
}.

(** ** Running code: a state and exception monad

    A computation runs from a state and either returns a value or raises;
    in both cases the state it reached is kept. *)
Inductive outcome (A : Type) : Type :=
| Return (a : A)
| Raise (e : exn).
Arguments Return {A} a.
Arguments Raise {A} e.

Definition M (A : Type) : Type := state -> outcome A * state.

#[global] Instance M_ret : MRet M := fun A a s => (Return a, s).

#[global] Instance M_bind : MBind M := fun A B f m s =>
  match m s with
  | (Return a, s') => f a s'
  | (Raise e, s') => (Raise e, s')
  end.

Definition raise {A : Type} (e : exn) : M A := fun s => (Raise e, s).

Definition emit (ev : event) : M unit := fun s =>
  (Return tt, {| heap := heap s; files := files s; trace := trace s ++ [ev] |}).

Definition alloc (o : pyobj) : M loc := fun s =>
  (Return (length (heap s)),
   {| heap := heap s ++ [o]; files := files s; trace := trace s |}).

Definition load (l : loc) : M pyobj := fun s =>
  match heap s !! l with
  | Some o => (Return o, s)
  | None => (Raise AttributeError, s)
  end.

Definition from_option {A : Type} (e : exn) (o : option A) : M A :=
  match o with
  | Some a => mret a
  | None => raise e
  end.

Fixpoint for_each {A : Type} (l : list A) (body : A -> M unit) : M unit :=
  match l with
  | [] => mret tt
  | x :: l' => body x ≫= fun _ => for_each l' body
  end.

Definition enumerate {A : Type} (l : list A) : list (nat * A) :=
  zip (seq 0 (length l)) l.

(** Reading an object as what the code expects it to be. *)
Definition load_array (l : loc) : M ndarray :=
  o ← load l;
  match o with
  | ObjArray a => mret a
  | _ => raise AttributeError
  end.

Definition load_axes (l : loc) : M axes :=
  o ← load l;
  match o with
  | ObjAxes ax => mret ax
  | _ => raise AttributeError
  end.

Definition load_NCVAR (l : loc) : M NCVAR :=
  o ← load l;
  match o with
  | ObjNCVAR v => mret v
  | _ => raise AttributeError
  end.

(** ** The library calls of the notebook *)

(** [os.path.exists(path)] *)
Definition os_path_exists (path : string) : M bool := fun s =>
  (Return (bool_decide (is_Some (files s !! path))),
   {| heap := heap s; files := files s; trace := trace s ++ [Exists path] |}).

(** [a * b], [a + b] and [np.ma.sqrt(a)] on array objects: each builds a
    new array and leaves its operands as they are. *)
Definition np_multiply (a b : loc) : M loc :=
  x ← load_array a;
  y ← load_array b;
  r ← from_option ValueError (multiply x y);
  alloc (ObjArray r).

Definition np_add (a b : loc) : M loc :=
  x ← load_array a;
  y ← load_array b;
  r ← from_option ValueError (add x y);
  alloc (ObjArray r).

Definition np_ma_sqrt (a : loc) : M loc :=
  x ← load_array a;
  alloc (ObjArray (ma_sqrt x)).

Definition read_files : M (gmap string (gmap string ncvariable)) := fun s =>
  (Return (files s), s).

Definition write_file (path : string) (f : gmap string ncvariable) : M unit :=
  fun s =>
    (Return tt,
     {| heap := heap s; files := <[path := f]> (files s);
        trace := trace s ++ [Create path] |}).

Definition print (p : printed) : M unit := emit (Print p).

(** Attribute reads [var.data] and [var.axislist]. *)
Definition attr_data (var : loc) : M loc :=
  v ← load_NCVAR var; mret (data v).

Definition attr_axislist (var : loc) : M loc :=
  v ← load_NCVAR var; mret (axislist v).

(** Modelled from the spec: [funcs.NCVAR(data, id, axislist, attributes)]
    creates a field from the four things it is given. *)
Definition funcs_NCVAR (d : loc) (v : string) (axl : loc)
    (attrs : gmap string string) : M loc :=
  alloc (ObjNCVAR {| data := d; var_id := v; axislist := axl; attributes := attrs |}).

(** Modelled from the spec: [getattr(var, 'units', '')] reads the field's
    units attribute, and is the empty string when there is none. *)
Definition getattr_units (var : loc) : M string :=
  v ← load_NCVAR var; mret (default ""%string (attributes v !! "units"%string)).

(** Modelled from the spec: [funcs.readNC(path, v)] opens the file,
    locates the named variable and returns a field with its data array,
    axes and attributes; a variable that is not in the file is a fatal
    error naming it. *)
Definition readNC (path v : string) : M loc :=
  emit (Open path);;
  fs ← read_files;
  f ← from_option (FileNotFoundError path) (fs !! path);
  var ← from_option (VariableNotFound v) (f !! v);
  d ← alloc (ObjArray (nc_data var));
  axl ← alloc (ObjAxes (nc_axes var));
  funcs_NCVAR d v axl (nc_attrs var).

(** Modelled from the spec: [funcs.saveNC(path, var)] serializes the
    field's data, axes and attributes to a new file at [path], replacing
    any file that is there; the file holds this one field. *)
Definition saveNC (path : string) (var : loc) : M unit :=
  v ← load_NCVAR var;
  d ← load_array (data v);
  ax ← load_axes (axislist v);
  write_file path
    {[ var_id v := {| nc_data := d; nc_axes := ax; nc_attrs := attributes v |} ]}.

(** Modelled from the spec: the read-only accessors of a field for its
    time, latitude and longitude axes, and its summary for printing. *)
Definition getTime (var : loc) : M (list float) :=
  v ← load_NCVAR var; ax ← load_axes (axislist v); mret (time_axis ax).

Definition getLatitude (var : loc) : M (list float) :=
  v ← load_NCVAR var; ax ← load_axes (axislist v); mret (latitude_axis ax).

Definition getLongitude (var : loc) : M (list float) :=
  v ← load_NCVAR var; ax ← load_axes (axislist v); mret (longitude_axis ax).

Definition info (var : loc) : M printed :=
  v ← load_NCVAR var;
  d ← load_array (data v);
  ax ← load_axes (axislist v);
  mret (PInfo (var_id v) (shape d) ax (attributes v)).

(** ** The notebook, cell by cell *)

Definition nl : string := String (Ascii.ascii_of_nat 10) EmptyString.

Definition UFLUX_FILE : string := "./uflux_s_6_1984_Jan.nc".
Definition VFLUX_FILE : string := "./vflux_s_6_1984_Jan.nc".
Definition OUTPUTFILE : string := "./ivt_s_6_1984_Jan.nc".

Definition UFLUX_not_found : string :=
  "UFLUX_FILE not found. Please make sure you downloaded the data file and save to the same dir as the notebook file.".

Definition VFLUX_not_found : string :=
  "VFLUX_FILE not found. Please make sure you downloaded the data file and save to the same dir as the notebook file.".

(** First code cell: both input files must be there. *)
Definition check_inputs : M unit :=
  u_there ← os_path_exists UFLUX_FILE;
  if negb u_there then raise (Exception UFLUX_not_found)
  else
    v_there ← os_path_exists VFLUX_FILE;
    if negb v_there then raise (Exception VFLUX_not_found)
    else mret tt.

(** Second code cell: read both fields and print the summary of [uflux]. *)
Definition read_data : M (loc * loc) :=
  uflux ← readNC UFLUX_FILE "p71.162";
  vflux ← readNC VFLUX_FILE "p72.162";
  print (PStr (nl +:+ "######## Info of uflux ########"));;
  p ← info uflux;
  print p;;
  mret (uflux, vflux).

(** The three cells printing the axes of [uflux], and the one printing the
    summary of [vflux]. *)
Definition print_latitude (uflux : loc) : M unit :=
  print (PStr "Latitude of uflux:");;
  l ← getLatitude uflux;
  print (PAxis l).

Definition print_longitude (uflux : loc) : M unit :=
  print (PStr "Longitude of uflux:");;
  l ← getLongitude uflux;
  print (PAxis l).

Definition print_time (uflux : loc) : M unit :=
  print (PStr "Time axis of uflux:");;
  l ← getTime uflux;
  print (PAxis l).

Definition print_vflux (vflux : loc) : M unit :=
  print (PStr "######## Info of uflux ########");;
  p ← info vflux;
  print p.

(** The attribute dictionary given to the derived field. *)
Definition ivt_attributes (units : string) : gmap string string :=
  <["name" := "ivt"]>
  (<["long_name" := "integrated vapor transport (IVT)"]>
  (<["standard_name" := "integrated_vapor_transport"]>
  (<["title" := "integrated vapor transport (IVT)"]>
  (<["units" := units]> ∅))))%string.

(** Last code cell, first part: the magnitude and the derived field. *)
Definition compute_ivt (uflux vflux : loc) : M loc :=
  u1 ← attr_data uflux;
  u2 ← attr_data uflux;
  uu ← np_multiply u1 u2;
  v1 ← attr_data vflux;
  v2 ← attr_data vflux;
  vv ← np_multiply v1 v2;
  sum ← np_add uu vv;
  ivt ← np_ma_sqrt sum;
  axl ← attr_axislist uflux;
  units ← getattr_units uflux;
  funcs_NCVAR ivt "ivt" axl (ivt_attributes units).

(** Second part: save the derived field. *)
Definition save_ivt (ivt : loc) : M unit :=
  print (PStr (nl +:+ "# Saving output to:" +:+ nl +:+ " " +:+ OUTPUTFILE));;
  saveNC OUTPUTFILE ivt.

(** Third part: one figure with a panel per field, all at time index
    [idx].  The calls that draw are kept as events of the trace. *)
Definition idx : nat := 100.

Definition titles : list string := ["U"; "V"; "IVT"]%string.

(** One turn of the loop over [enumerate(plot_vars)]. *)

Definition plot_panel (uflux : loc) (time_str : float) (p : nat * slice) : M unit :=
  let '(ii, vii) := p in
  emit (AddSubplot 3 1 (ii + 1));;
  emit (Isofill vii 10 1 2);;
  title ← from_option IndexError (titles !! ii);
  xarray ← getLongitude uflux;
  yarray ← getLatitude uflux;
  emit (Plot2 vii time_str title xarray yarray).

Definition plot_figure (uflux vflux ivt : loc) : M unit :=
  emit Figure;;
  tm ← getTime uflux;
  time_str ← from_option IndexError (tm !! idx);
  ud ← attr_data uflux;
  ua ← load_array ud;
  u_idx ← from_option IndexError (getitem ua idx);
  vd ← attr_data vflux;
  va ← load_array vd;
  v_idx ← from_option IndexError (getitem va idx);
  ivd ← attr_data ivt;
  ia ← load_array ivd;
  ivt_idx ← from_option IndexError (getitem ia idx);
  let plot_vars := [u_idx; v_idx; ivt_idx] in
  for_each (enumerate plot_vars) (plot_panel uflux time_str);;
  emit Show.

Definition last_cell (uflux vflux : loc) : M unit :=
  ivt ← compute_ivt uflux vflux;
  save_ivt ivt;;
  plot_figure uflux vflux ivt.

(** The cells in sequence, as when the notebook is run from top to bottom:
    the first exception ends the run. *)
Definition notebook : M unit :=
  check_inputs;;
  '(uflux, vflux) ← read_data;
  print_latitude uflux;;
  print_longitude uflux;;
  print_time uflux;;
  print_vflux vflux;;
  last_cell uflux vflux.

(** Constant arrays, for examples. *)
Definition full (s : nat * nat * nat) (c : cell) : ndarray :=
  {| shape := s; item := fun _ _ _ => c |}.

(** The product of an array with itself, which never fails. *)
Definition square (a : ndarray) : ndarray :=
  {| shape := shape a;
     item := fun t i j =>
       masked_binary_cell PrimFloat.mul (item_bcast a t i j) (item_bcast a t i j) |}.

(** The field object at [l] together with its data array, when both are
    there. *)
Definition field_of (h : list pyobj) (l : loc) : option (NCVAR * ndarray) :=
  match h !! l with
  | Some (ObjNCVAR v) =>
      match h !! data v with
      | Some (ObjArray a) => Some (v, a)
      | _ => None
      end
  | _ => None
  end.

(** The axes a field object refers to. *)
Definition axes_of (h : list pyobj) (v : NCVAR) : option axes :=
  match h !! axislist v with
  | Some (ObjAxes ax) => Some ax
  | _ => None
  end.

(** A state with another object store. *)
Definition set_heap (s : state) (h : list pyobj) : state :=
  {| heap := h; files := files s; trace := trace s |}.

(** The derived field that [compute_ivt] builds in store [h] from the
    first input field [nu]. *)
Definition ivt_NCVAR (h : list pyobj) (nu : NCVAR) : NCVAR :=
  {| data := length h + 3; var_id := "ivt";
     axislist := axislist nu;
     attributes := ivt_attributes (default ""%string (attributes nu !! "units"%string)) |}.

(** A state with more events at the end of its trace. *)
Definition add_trace (s : state) (evs : list event) : state :=
  {| heap := heap s; files := files s; trace := trace s ++ evs |}.

(** The number of time steps of an array, and its slice at one of them. *)
Definition time_steps (a : ndarray) : nat := (shape a).1.1.

Definition at_time (a : ndarray) (k : nat) : slice :=
  {| slice_shape := ((shape a).1.2, (shape a).2); slice_item := item a k |}.

(** What a complete figure adds to the trace. *)
Definition figure_events (u_idx v_idx ivt_idx : slice) (time_str : float)
    (xarray yarray : list float) : list event :=
  [Figure;
   AddSubplot 3 1 1; Isofill u_idx 10 1 2; Plot2 u_idx time_str "U" xarray yarray;
   AddSubplot 3 1 2; Isofill v_idx 10 1 2; Plot2 v_idx time_str "V" xarray yarray;
   AddSubplot 3 1 3; Isofill ivt_idx 10 1 2; Plot2 ivt_idx time_str "IVT" xarray yarray;
   Show].

(** What a computation may do to the objects: [keeps_objects] lets it
    create new ones, [keeps_heap] not even that. *)
Definition keeps_objects {A : Type} (m : M A) : Prop :=
  forall s r s', m s = (r, s') -> heap s `prefix_of` heap s'.

Definition keeps_heap {A : Type} (m : M A) : Prop :=
  forall s r s', m s = (r, s') -> heap s' = heap s.

(** ** Example inputs

    Two fields on a grid of one cell: the store after both were read
    ([uflux] at 2, [vflux] at 5), and the files they come from. *)
Definition u_axes : axes :=
  {| time_axis := [441792%float]; latitude_axis := [10%float];
     longitude_axis := [0%float] |}.

Definition v_axes : axes :=
  {| time_axis := [441798%float]; latitude_axis := [10.75%float];
     longitude_axis := [0.75%float] |}.

Definition u_attrs : gmap string string :=
  {[ "units" := "kg m**-1 s**-1" ]}%string.

Definition loaded_with (ax : axes) (u v : ndarray) : state :=
  {| heap :=
       [ObjArray u; ObjAxes ax;
        ObjNCVAR {| data := 0; var_id := "p71.162"; axislist := 1;
                    attributes := u_attrs |};
        ObjArray v; ObjAxes v_axes;
        ObjNCVAR {| data := 3; var_id := "p72.162"; axislist := 4;
                    attributes := ∅ |}];
     files := ∅;
     trace := [] |}.

Definition loaded (u v : ndarray) : state := loaded_with u_axes u v.

(** Axes with 101 six-hourly time steps. *)
Definition long_axes : axes :=
  {| time_axis :=
       map (fun k => (441792 + of_uint63 (Uint63.of_Z (6 * Z.of_nat k)))%float)
           (seq 0 101);
     latitude_axis := [10%float];
     longitude_axis := [0%float] |}.

Definition on_disk (u v : ndarray) : state :=
  {| heap := [];
     files :=
       <[UFLUX_FILE :=
           {[ "p71.162"%string :=
                {| nc_data := u; nc_axes := u_axes; nc_attrs := u_attrs |} ]}]>
       (<[VFLUX_FILE :=
           {[ "p72.162"%string :=
                {| nc_data := v; nc_axes := v_axes; nc_attrs := ∅ |} ]}]> ∅);
     trace := [] |}.

Definition one_cell (x : float) : ndarray := full (1, 1, 1) (Some x).

(** ** A run seen from the files

    The two input variables of a state, what a run of the notebook
    returns, and the files it leaves, as functions of the files at the
    start. *)
Definition inputs_of (s : state) : option (ncvariable * ncvariable) :=
  fu ← files s !! UFLUX_FILE;
  u ← fu !! "p71.162"%string;
  fv ← files s !! VFLUX_FILE;
  v ← fv !! "p72.162"%string;
  Some (u, v).

Definition figure_outcome (tm : list float) (ua va ia : ndarray) : outcome unit :=
  match tm !! idx, getitem ua idx, getitem va idx, getitem ia idx with
  | Some _, Some _, Some _, Some _ => Return tt
  | _, _, _, _ => Raise IndexError
  end.

Definition run_outcome (s : state) : outcome unit :=
  match files s !! UFLUX_FILE with
  | None => Raise (Exception UFLUX_not_found)
  | Some fu =>
      match files s !! VFLUX_FILE with
      | None => Raise (Exception VFLUX_not_found)
      | Some fv =>
          match fu !! "p71.162"%string with
          | None => Raise (VariableNotFound "p71.162")
          | Some u =>
              match fv !! "p72.162"%string with
              | None => Raise (VariableNotFound "p72.162")
              | Some v =>
                  match ivt_data (nc_data u) (nc_data v) with
                  | None => Raise ValueError
                  | Some r =>
                      figure_outcome (time_axis (nc_axes u))
                        (nc_data u) (nc_data v) r
                  end
              end
          end
      end
  end.

Definition ivt_variable (u : ncvariable) (r : ndarray) : ncvariable :=
  {| nc_data := r; nc_axes := nc_axes u;
     nc_attrs := ivt_attributes (default ""%string (nc_attrs u !! "units"%string)) |}.

Definition run_files (s : state) : gmap string (gmap string ncvariable) :=
  match inputs_of s with
  | Some (u, v) =>
      match ivt_data (nc_data u) (nc_data v) with
      | Some r => <[OUTPUTFILE := {[ "ivt"%string := ivt_variable u r ]}]> (files s)
      | None => files s
      end
  | None => files s
  end.

(** A computation that neither writes a file nor adds to the trace. *)
Definition keeps_io {A : Type} (m : M A) : Prop :=
  forall s r s', m s = (r, s') -> files s' = files s /\ trace s' = trace s.

(** * Properties *)

(** ** Binary64 arithmetic *)

Module F64_facts.
Import F64.
Local Open Scope Z_scope.

(** The specification-level addition is symmetric in its operands. *)
Lemma SFadd_comm (prec emax : Z) (x y : spec_float) :
  SFadd prec emax x y = SFadd prec emax y x.
Proof.
  destruct x as [[]|[]| |[] mx ex], y as [[]|[]| |[] my ey];
    try reflexivity;
    unfold SFadd; rewrite (Z.min_comm ey ex); f_equal; apply Z.add_comm.
Qed.

Lemma add_comm (a b : float) : (a + b)%float = (b + a)%float.
Proof. apply Prim2SF_inj. rewrite !add_spec. apply SFadd_comm. Qed.

(** A square, and a sum of squares, is never below zero. *)
Lemma binary_round_aux_nonneg prec emax mx ex lx :
  nonneg (binary_round_aux prec emax false mx ex lx).
Proof.
  unfold binary_round_aux.
  destruct (shr_fexp prec emax mx ex lx) as [mrs' e'].
  destruct (shr_fexp prec emax _ e' loc_Exact) as [mrs'' e''].
  destruct (shr_m mrs''); simpl; try done. by destruct (_ <=? _)%Z.
Qed.

Lemma SFmul_self_nonneg prec emax x : nonneg (SFmul prec emax x x).
Proof.
  destruct x as [[]|[]| |[] m e]; simpl; try done;
    apply binary_round_aux_nonneg.
Qed.

Lemma SFadd_nonneg prec emax x y :
  nonneg x -> nonneg y -> nonneg (SFadd prec emax x y).
Proof.
  destruct x as [[]|[]| |[] mx ex], y as [[]|[]| |[] my ey]; simpl; try done.
  intros _ _. unfold binary_normalize, binary_round.
  destruct (shl_align _ _ _) as [mz ez]. apply binary_round_aux_nonneg.
Qed.

Lemma nonneg_not_ltb_zero x : nonneg x -> SFltb x (S754_zero false) = false.
Proof. by destruct x as [[]|[]| |[] m e]. Qed.

Lemma sum_of_squares_not_negative (x y : float) :
  (x * x + y * y <? 0)%float = false.
Proof.
  rewrite ltb_spec, add_spec, !mul_spec.
  apply nonneg_not_ltb_zero, SFadd_nonneg; apply SFmul_self_nonneg.
Qed.

(** *** The root of a square

    When the square of [x] is a normal number, it is rounded to 53
    bits, and the correctly rounded root of that is [abs x] again. *)

Lemma digits2_pos_spec (p : positive) :
  2 ^ (Zpos (digits2_pos p) - 1) <= Zpos p < 2 ^ Zpos (digits2_pos p).
Proof.
  induction p as [p IH|p IH|]; cbn [digits2_pos].
  - rewrite Pos2Z.inj_succ.
    replace (Z.succ (Zpos (digits2_pos p)) - 1) with (Z.succ (Zpos (digits2_pos p) - 1)) by lia.
    rewrite !Z.pow_succ_r by lia. lia.
  - rewrite Pos2Z.inj_succ.
    replace (Z.succ (Zpos (digits2_pos p)) - 1) with (Z.succ (Zpos (digits2_pos p) - 1)) by lia.
    rewrite !Z.pow_succ_r by lia. lia.
  - simpl. lia.
Qed.

Lemma digits2_pos_unique (p : positive) (d : Z) :
  2 ^ (d - 1) <= Zpos p < 2 ^ d -> Zpos (digits2_pos p) = d.
Proof.
  intros [Hlo Hhi]. pose proof (digits2_pos_spec p) as [Hlo' Hhi'].
  assert (0 < d).
  { destruct (Z.le_gt_cases d 0) as [Hd|]; [|done].
    destruct (Z.eq_dec d 0) as [->|]; [simpl in Hhi; lia|].
    rewrite Z.pow_neg_r in Hhi by lia. lia. }
  assert (d - 1 < Zpos (digits2_pos p)).
  { apply (Z.pow_lt_mono_r_iff 2); lia. }
  assert (Zpos (digits2_pos p) - 1 < d).
  { apply (Z.pow_lt_mono_r_iff 2); lia. }
  lia.
Qed.

Lemma iter_pos_nat {A : Type} (f : A -> A) (k : positive) (x : A) :
  SpecFloat.iter_pos f k x = Nat.iter (Pos.to_nat k) f x.
Proof.
  revert x. induction k as [k IH|k IH|]; intros x; cbn [SpecFloat.iter_pos].
  - rewrite !IH, Pos2Nat.inj_xI.
    replace (S (2 * Pos.to_nat k))%nat with (Pos.to_nat k + (Pos.to_nat k + 1))%nat by lia.
    rewrite !Nat.iter_add. reflexivity.
  - rewrite !IH, Pos2Nat.inj_xO.
    replace (2 * Pos.to_nat k)%nat with (Pos.to_nat k + Pos.to_nat k)%nat by lia.
    rewrite Nat.iter_add. reflexivity.
  - reflexivity.
Qed.

Lemma shr_1_spec (m : Z) (r s : bool) :
  0 <= m ->
  shr_1 (Build_shr_record m r s) =
  Build_shr_record (m / 2) (Z.odd m) (r || s).
Proof.
  intros Hm. destruct m as [|[p|p|]|p]; try lia; cbn [shr_1]; f_equal.
  - rewrite Pos2Z.inj_xI. Z.div_mod_to_equations. lia.
  - rewrite Pos2Z.inj_xO. Z.div_mod_to_equations. lia.
Qed.

Lemma shr_1_represents (N k : Z) (mrs : shr_record) :
  1 <= k -> represents N k mrs -> represents N (k + 1) (shr_1 mrs).
Proof.
  intros Hk [Hm (t & HN & Ht & Hs)]. destruct mrs as [m r s].
  cbn [shr_m shr_r shr_s] in *.
  rewrite shr_1_spec by done. unfold represents. cbn [shr_m shr_r shr_s].
  set (P := 2 ^ (k - 1)) in *.
  assert (0 < P) by (apply Z.pow_pos_nonneg; lia).
  assert (2 ^ k = 2 * P) as HP.
  { unfold P. rewrite <- Z.pow_succ_r by lia. f_equal. lia. }
  assert (2 ^ (k + 1) = 2 * (2 * P)) as HP2.
  { rewrite <- HP, <- Z.pow_succ_r by lia. f_equal. }
  replace (k + 1 - 1) with k by lia. rewrite HP2, HP in *.
  assert (exists h, m = 2 * h + (if Z.odd m then 1 else 0) /\ m / 2 = h /\ 0 <= h)
    as (h & Hodd & -> & Hh).
  { exists (m / 2). rewrite (Z.div2_odd m) at 1. rewrite Z.div2_div.
    split; [by destruct (Z.odd m)|]. split; [done|]. Z.div_mod_to_equations. lia. }
  split; [done|].
  exists ((if r then P else 0) + t).
  destruct Hs as [Hs1 Hs2].
  destruct (Z.odd m), r, s; cbn [orb]; (split; [nia|split; [lia|]]);
    (split; intros; try done; try lia).
  all: exfalso; lia.
Qed.

Lemma shr_1_first (N : Z) :
  0 <= N -> represents N 1 (shr_1 (Build_shr_record N false false)).
Proof.
  intros HN. rewrite shr_1_spec by done. unfold represents. cbn [shr_m shr_r shr_s orb].
  split; [Z.div_mod_to_equations; lia|]. exists 0.
  replace (1 - 1) with 0 by lia. rewrite Z.pow_0_r, Z.pow_1_r.
  split; [|split; [lia|split; [done|lia]]].
  rewrite (Z.div2_odd N) at 1. rewrite Z.div2_div. destruct (Z.odd N); simpl; lia.
Qed.

Lemma iter_shr_1_represents (N : Z) (k : positive) :
  0 <= N ->
  represents N (Zpos k) (SpecFloat.iter_pos shr_1 k (Build_shr_record N false false)).
Proof.
  intros HN. rewrite iter_pos_nat.
  rewrite <- (positive_nat_Z k).
  destruct (Pos2Nat.is_succ k) as [n ->].
  induction n as [|n IH].
  - by apply shr_1_first.
  - cbn [Nat.iter]. rewrite (Nat2Z.inj_succ (S n)).
    apply shr_1_represents; [lia|exact IH].
Qed.

(** Rounding to nearest the record of [N] at scale [k] is within half a
    unit of [N]. *)
Lemma round_nearest_even_close (N k : Z) (mrs : shr_record) :
  1 <= k -> represents N k mrs ->
  let M := round_nearest_even (shr_m mrs) (loc_of_shr_record mrs) in
  shr_m mrs <= M <= shr_m mrs + 1 /\
  - 2 ^ (k - 1) <= M * 2 ^ k - N <= 2 ^ (k - 1).
Proof.
  intros Hk [Hm (t & HN & Ht & Hs)]. destruct mrs as [m r s].
  cbn [shr_m shr_r shr_s] in *.
  set (P := 2 ^ (k - 1)) in *.
  assert (2 ^ k = 2 * P) as HP.
  { unfold P. rewrite <- Z.pow_succ_r by lia. f_equal. lia. }
  rewrite HP in *. destruct Hs as [Hs1 Hs2].
  destruct r, s; cbn [loc_of_shr_record round_nearest_even];
    try destruct (Z.even m); split; try lia; try nia.
  all: assert (0 < t) by (by apply Hs1); nia.
Qed.

Lemma pow2_51 : 2 ^ 51 = 2251799813685248. Proof. reflexivity. Qed.
Lemma pow2_52 : 2 ^ 52 = 4503599627370496. Proof. reflexivity. Qed.
Lemma pow2_53 : 2 ^ 53 = 9007199254740992. Proof. reflexivity. Qed.
Lemma pow2_104 : 2 ^ 104 = 20282409603651670423947251286016. Proof. reflexivity. Qed.
Lemma pow2_105 : 2 ^ 105 = 40564819207303340847894502572032. Proof. reflexivity. Qed.
Lemma pow2_106 : 2 ^ 106 = 81129638414606681695789005144064. Proof. reflexivity. Qed.

Lemma fexp_normal (x : Z) : -1021 <= x -> fexp prec emax x = x - 53.
Proof. intros Hx. unfold fexp, emin, prec, emax. lia. Qed.

Lemma shr_no_shift (mrs : shr_record) (e n : Z) : n <= 0 -> shr mrs e n = (mrs, e).
Proof. intros Hn. by destruct n. Qed.

Lemma digits_53 (m : positive) :
  Zpos (digits2_pos m) = 53 <-> 2 ^ 52 <= Zpos m < 2 ^ 53.
Proof.
  split.
  - intros H. pose proof (digits2_pos_spec m) as Hm. rewrite H in Hm. exact Hm.
  - intros H. by apply digits2_pos_unique.
Qed.

(** A normal number that is returned as it is by the final rounding. *)
Lemma binary_round_aux_exact (m : positive) (e : Z) (l : location) (q : Z) :
  2 ^ 52 <= Zpos m < 2 ^ 53 -> -1074 <= e <= 971 ->
  0 < q < 2 ^ 53 -> round_nearest_even q l = Zpos m ->
  binary_round_aux prec emax false q e l = S754_finite false m e.
Proof.
  intros Hm He Hq Hround. unfold binary_round_aux, shr_fexp.
  destruct q as [|qp|qp]; try lia. cbn [Zdigits2].
  pose proof (digits2_pos_spec qp) as Hd.
  assert (Zpos (digits2_pos qp) <= 53) as Hdq.
  { assert (Zpos (digits2_pos qp) - 1 < 53); [|lia].
    apply (Z.pow_lt_mono_r_iff 2); lia. }
  rewrite shr_no_shift by (unfold fexp, emin, prec, emax; lia).
  assert (loc_of_shr_record (shr_record_of_loc (Zpos qp) l) = l) as ->.
  { by destruct l as [|[]]. }
  assert (shr_m (shr_record_of_loc (Zpos qp) l) = Zpos qp) as ->.
  { by destruct l as [|[]]. }
  rewrite Hround. cbn [Zdigits2 shr_record_of_loc].
  apply digits_53 in Hm. rewrite Hm.
  rewrite shr_no_shift by (unfold fexp, emin, prec, emax; lia).
  cbn [shr_m]. unfold prec, emax.
  destruct (Z.leb_spec e (1024 - 53)); [done|lia].
Qed.

Lemma SFmul_square (s : bool) (m : positive) (e : Z) :
  2 ^ 52 <= Zpos m < 2 ^ 53 -> -563 <= e <= 459 ->
  exists (M : positive) (n : positive),
    (n = 52 \/ n = 53)%positive /\
    SFmul prec emax (S754_finite s m e) (S754_finite s m e)
      = S754_finite false M (2 * e + Zpos n) /\
    2 ^ 52 <= Zpos M < 2 ^ 53 /\
    - 2 ^ (Zpos n - 1) <= Zpos M * 2 ^ Zpos n - Zpos m * Zpos m <= 2 ^ (Zpos n - 1) /\
    2 ^ (Zpos n - 1) < Zpos m.
Proof.
  intros Hm He. rewrite pow2_52, pow2_53 in Hm.
  cbn [SFmul]. rewrite xorb_nilpotent.
  set (N := Zpos (m * m)).
  assert (N = Zpos m * Zpos m) as HN by apply Pos2Z.inj_mul.
  pose proof (digits2_pos_spec (m * m)) as Hd. fold N in Hd.
  set (d := Zpos (digits2_pos (m * m))) in *.
  assert (d = 105 \/ d = 106) as Hd'.
  { assert (104 < d).
    { apply (Z.pow_lt_mono_r_iff 2); [lia|lia|]. rewrite pow2_104. nia. }
    assert (d - 1 < 106).
    { apply (Z.pow_lt_mono_r_iff 2); [lia|lia|]. rewrite pow2_106. nia. }
    lia. }
  assert (exists n : positive, (n = 52 \/ n = 53)%positive /\ d = Zpos n + 53)
    as (n & Hn & Hdn).
  { destruct Hd' as [-> | ->]; [exists 52%positive | exists 53%positive]; split; auto. }
  exists (Z.to_pos (round_nearest_even
            (shr_m (SpecFloat.iter_pos shr_1 n (Build_shr_record N false false)))
            (loc_of_shr_record (SpecFloat.iter_pos shr_1 n (Build_shr_record N false false))))), n.
  split; [done|].
  pose proof (iter_shr_1_represents N n ltac:(lia)) as Hrep.
  set (mrs := SpecFloat.iter_pos shr_1 n (Build_shr_record N false false)) in *.
  pose proof (round_nearest_even_close N (Zpos n) mrs ltac:(lia) Hrep) as [HM1 HM2].
  set (M := round_nearest_even (shr_m mrs) (loc_of_shr_record mrs)) in *.
  assert (2 ^ 52 <= M < 2 ^ 53 /\ 2 ^ (Zpos n - 1) < Zpos m) as [HM Hlt].
  { rewrite pow2_52, pow2_53.
    destruct Hn as [-> | ->].
    - change (52 - 1) with 51 in *. rewrite pow2_52, pow2_51 in *.
      assert (d = 105) as Hd105 by lia. rewrite Hd105 in Hd.
      change (105 - 1) with 104 in Hd. rewrite pow2_104, pow2_105 in Hd.
      assert (Zpos m <= 6369051672525772) by nia.
      nia.
    - change (53 - 1) with 52 in *. rewrite pow2_53, pow2_52 in *.
      assert (d = 106) as Hd106 by lia. rewrite Hd106 in Hd.
      change (106 - 1) with 105 in Hd. rewrite pow2_105, pow2_106 in Hd.
      nia. }
  assert (exists Mp, M = Zpos Mp) as [Mp HMp].
  { destruct M as [|Mp|Mp]; try (rewrite pow2_52 in HM; lia). by exists Mp. }
  unfold binary_round_aux, shr_fexp. fold N. change (Zdigits2 N) with d.
  rewrite fexp_normal by lia.
  replace (d + (e + e) - 53 - (e + e)) with (Zpos n) by lia.
  cbn [shr shr_record_of_loc]. fold mrs. fold M.
  rewrite HMp in *. cbn [Z.to_pos Zdigits2].
  assert (Zpos (digits2_pos Mp) = 53) as -> by (by apply digits_53).
  rewrite fexp_normal by lia.
  rewrite shr_no_shift by lia. cbn [shr_m shr_record_of_loc].
  unfold prec, emax.
  destruct (Z.leb_spec (e + e + Zpos n) (1024 - 53)); [|lia].
  split; [f_equal; lia|]. split; [done|]. split; [lia|done].
Qed.

Lemma SFsqrt_near_square (M m n : positive) (e : Z) :
  (n = 52 \/ n = 53)%positive ->
  2 ^ 52 <= Zpos M < 2 ^ 53 -> 2 ^ 52 <= Zpos m < 2 ^ 53 ->
  - 2 ^ (Zpos n - 1) <= Zpos M * 2 ^ Zpos n - Zpos m * Zpos m <= 2 ^ (Zpos n - 1) ->
  2 ^ (Zpos n - 1) < Zpos m ->
  -1074 <= e <= 971 ->
  SFsqrt prec emax (S754_finite false M (2 * e + Zpos n)) = S754_finite false m e.
Proof.
  intros Hn HM Hm Hclose Hlt He.
  cbn [SFsqrt]. unfold SFsqrt_core_binary. cbn [Zdigits2].
  assert (Zpos (digits2_pos M) = 53) as -> by (by apply digits_53).
  assert (Z.div2 (53 + (2 * e + Zpos n) + 1) = e + 53) as ->.
  { rewrite Z.div2_div. destruct Hn as [-> | ->]; Z.div_mod_to_equations; lia. }
  assert (Z.div2 (2 * e + Zpos n) = e + 26) as ->.
  { rewrite Z.div2_div. destruct Hn as [-> | ->]; Z.div_mod_to_equations; lia. }
  rewrite fexp_normal by lia.
  replace (Z.min (e + 53 - 53) (e + 26)) with e by lia.
  replace (2 * e + Zpos n - 2 * e) with (Zpos n) by lia.
  rewrite Z.shiftl_mul_pow2 by lia.
  set (m' := Zpos M * 2 ^ Zpos n) in *.
  assert (0 <= m') as Hm'.
  { unfold m'. apply Z.mul_nonneg_nonneg; [lia|]. apply Z.pow_nonneg. lia. }
  pose proof (Z.sqrtrem_spec m' Hm') as Hspec.
  destruct (Z.sqrtrem m') as [q r]. destruct Hspec as [Hqr Hr].
  set (P := 2 ^ (Zpos n - 1)) in *.
  rewrite pow2_52, pow2_53 in *.
  assert (0 < P) as HP by (apply Z.pow_pos_nonneg; lia).
  assert (0 <= q) as Hq0 by lia.
  apply binary_round_aux_exact; rewrite ?pow2_52, ?pow2_53; try lia.
  - destruct (Z.le_gt_cases (Zpos m * Zpos m) m') as [Hge|Hlt'].
    + assert (q = Zpos m) by nia. lia.
    + assert (q = Zpos m - 1) by nia. lia.
  - destruct (Z.le_gt_cases (Zpos m * Zpos m) m') as [Hge|Hlt'].
    + assert (q = Zpos m) as Hq by nia.
      assert (r <= q) by nia.
      destruct (Z.eqb_spec r 0); [done|].
      destruct (Z.leb_spec r q); [|lia]. done.
    + assert (q = Zpos m - 1) as Hq by nia.
      assert (q < r) by nia.
      destruct (Z.eqb_spec r 0); [lia|].
      destruct (Z.leb_spec r q); [lia|]. cbn [round_nearest_even]. lia.
Qed.

Lemma Prim2SF_zero : Prim2SF 0 = S754_zero false.
Proof. vm_compute. reflexivity. Qed.

Lemma Prim2SF_infinity : Prim2SF infinity = S754_infinity false.
Proof. vm_compute. reflexivity. Qed.

Lemma Prim2SF_lower : Prim2SF 0x1p-511 = S754_finite false 4503599627370496 (-563).
Proof. vm_compute. reflexivity. Qed.

Lemma Prim2SF_upper : Prim2SF 0x1p+512 = S754_finite false 4503599627370496 460.
Proof. vm_compute. reflexivity. Qed.

Lemma finite_in_range (x : float) :
  square_is_normal x = true ->
  exists s m e, Prim2SF x = S754_finite s m e /\
                2 ^ 52 <= Zpos m < 2 ^ 53 /\ -563 <= e <= 459.
Proof.
  unfold square_is_normal. intros [Hlo Hhi]%andb_true_iff.
  rewrite leb_spec, abs_spec in Hlo. rewrite ltb_spec, abs_spec in Hhi.
  pose proof (Prim2SF_valid x) as Hvalid.
  rewrite Prim2SF_lower in Hlo. rewrite Prim2SF_upper in Hhi.
  destruct (Prim2SF x) as [s|s| |s m e].
  - discriminate Hlo.
  - discriminate Hhi.
  - discriminate Hlo.
  - exists s, m, e. split; [reflexivity|].
    cbn [SFabs] in *. unfold SFleb, SFltb in *. cbn [SFcompare] in *.
    cbn [valid_binary] in Hvalid. unfold bounded, canonical_mantissa in Hvalid.
    apply andb_true_iff in Hvalid as [Hcanon _]. apply Z.eqb_eq in Hcanon.
    assert (-563 <= e) as He1.
    { destruct (Z.compare_spec (-563) e); [lia|lia|discriminate Hlo]. }
    assert (e <= 460) as He2.
    { destruct (Z.compare_spec e 460); [lia|lia|discriminate Hhi]. }
    assert (Zpos (digits2_pos m) = 53) as Hd.
    { unfold fexp, emin, prec, emax in Hcanon. lia. }
    apply digits_53 in Hd. split; [exact Hd|]. split; [exact He1|].
    destruct (Z.eq_dec e 460) as [->|]; [|lia].
    rewrite Z.compare_refl in Hhi.
    pose proof (Pos.compare_spec m 4503599627370496) as Hc.
    unfold Pos.compare in Hc. revert Hhi.
    destruct Hc as [?|Hlt|?]; intros Hhi;
      [discriminate Hhi| |discriminate Hhi].
    apply Pos2Z.pos_lt_pos in Hlt.
    clear -Hd Hlt. rewrite pow2_52, pow2_53 in Hd. lia.
Qed.

Lemma sqrt_square_normal (x : float) :
  square_is_normal x = true ->
  sqrt (x * x + 0 * 0)%float = abs x /\ is_finite (abs x) = true.
Proof.
  intros (s & m & e & HX & Hm & He)%finite_in_range.
  assert (Prim2SF (abs x) = S754_finite false m e) as Habs.
  { by rewrite abs_spec, HX. }
  split.
  - apply Prim2SF_inj. rewrite Habs, sqrt_spec, add_spec, !mul_spec, HX.
    rewrite Prim2SF_zero. unfold SF64sqrt, SF64add, SF64mul.
    destruct (SFmul_square s m e Hm He) as (M & n & Hn & -> & HM & Hclose & Hlt).
    cbn [SFmul SFadd xorb].
    apply SFsqrt_near_square; [assumption..|lia].
  - unfold is_finite, is_nan, is_infinity.
    rewrite !FloatAxioms.eqb_spec, !abs_spec, HX.
    rewrite Prim2SF_infinity.
    cbn [SFabs]. unfold SFeqb. cbn [SFcompare].
    rewrite Z.compare_refl, Pos.compare_cont_refl. done.
Qed.

Lemma sqrt_square_zero (x : float) :
  (x =? 0)%float = true ->
  sqrt (x * x + 0 * 0)%float = abs x /\ is_finite (abs x) = true.
Proof.
  rewrite FloatAxioms.eqb_spec, Prim2SF_zero. intros Hx.
  assert (exists s, Prim2SF x = S754_zero s) as [s HX].
  { destruct (Prim2SF x) as [s|[]| |[] m e]; try done. by exists s. }
  assert (Prim2SF (abs x) = S754_zero false) as Habs.
  { by rewrite abs_spec, HX. }
  split.
  - apply Prim2SF_inj. rewrite Habs, sqrt_spec, add_spec, !mul_spec, HX.
    rewrite Prim2SF_zero. unfold SF64sqrt, SF64add, SF64mul. by destruct s.
  - unfold is_finite, is_nan, is_infinity.
    rewrite !FloatAxioms.eqb_spec, !abs_spec, HX, Prim2SF_infinity. done.
Qed.

End F64_facts.

(** ** Broadcasting and the cells of the magnitude *)

Lemma broadcast_dim_diag (n : nat) : broadcast_dim n n = Some n.
Proof. unfold broadcast_dim. by rewrite Nat.eqb_refl. Qed.

Lemma broadcast_dim_sym (m n : nat) : broadcast_dim m n = broadcast_dim n m.
Proof.
  unfold broadcast_dim.
  destruct (Nat.eqb_spec m n) as [->|Hmn].
  - by rewrite Nat.eqb_refl.
  - destruct (Nat.eqb_spec n m) as [->|_]; [done|].
    destruct (Nat.eqb_spec m 1) as [->|_], (Nat.eqb_spec n 1) as [->|_]; done.
Qed.

Lemma broadcast_dim_lt (m n k x : nat) :
  broadcast_dim m n = Some k -> x < m -> x < n -> x < k.
Proof.
  unfold broadcast_dim. intros H Hm Hn.
  repeat case_match; simplify_eq; lia.
Qed.

Lemma broadcast_shapes_diag (s : nat * nat * nat) : broadcast_shapes s s = Some s.
Proof.
  destruct s as [[nt ni] nj]. unfold broadcast_shapes.
  by rewrite !broadcast_dim_diag.
Qed.

Lemma broadcast_shapes_sym (s1 s2 : nat * nat * nat) :
  broadcast_shapes s1 s2 = broadcast_shapes s2 s1.
Proof.
  destruct s1 as [[t1 i1] j1], s2 as [[t2 i2] j2]. unfold broadcast_shapes.
  by rewrite (broadcast_dim_sym t1), (broadcast_dim_sym i1), (broadcast_dim_sym j1).
Qed.

Lemma broadcast_shapes_in_range (s1 s2 s : nat * nat * nat) (t i j : nat) :
  broadcast_shapes s1 s2 = Some s ->
  in_range s1 t i j -> in_range s2 t i j -> in_range s t i j.
Proof.
  destruct s1 as [[t1 i1] j1], s2 as [[t2 i2] j2], s as [[nt ni] nj].
  unfold broadcast_shapes, in_range. intros H (?&?&?) (?&?&?).
  destruct (broadcast_dim t1 t2) eqn:Ht; [|done].
  destruct (broadcast_dim i1 i2) eqn:Hi; [|done].
  destruct (broadcast_dim j1 j2) eqn:Hj; [|done].
  simpl in H. simplify_eq.
  split; [|split];
    [ eapply (broadcast_dim_lt t1 t2) | eapply (broadcast_dim_lt i1 i2)
    | eapply (broadcast_dim_lt j1 j2) ]; eassumption.
Qed.

Lemma bcast_idemp (n k : nat) : bcast n (bcast n k) = bcast n k.
Proof. unfold bcast. by destruct (n =? 1)%nat. Qed.

Lemma bcast_lt (n k : nat) : k < n -> bcast n k = k.
Proof. unfold bcast. destruct (Nat.eqb_spec n 1); lia. Qed.

Lemma item_bcast_in_range (a : ndarray) (t i j : nat) :
  in_range (shape a) t i j -> item_bcast a t i j = item a t i j.
Proof.
  unfold item_bcast, in_range. destruct (shape a) as [[nt ni] nj].
  intros (?&?&?). by rewrite !bcast_lt.
Qed.

Lemma multiply_square (a : ndarray) : multiply a a = Some (square a).
Proof. unfold multiply, masked_binary. by rewrite broadcast_shapes_diag. Qed.

Lemma item_bcast_square (a : ndarray) (t i j : nat) :
  item_bcast (square a) t i j =
  masked_binary_cell PrimFloat.mul (item_bcast a t i j) (item_bcast a t i j).
Proof.
  unfold item_bcast at 1. unfold square. cbn [shape item].
  unfold item_bcast. destruct (shape a) as [[nt ni] nj].
  by rewrite !bcast_idemp.
Qed.

Lemma ivt_data_unfold (u v : ndarray) :
  ivt_data u v = (sum ← add (square u) (square v); Some (ma_sqrt sum)).
Proof. unfold ivt_data. by rewrite !multiply_square. Qed.

(** The magnitude expression succeeds exactly when the two shapes can be
    broadcast together; each cell of the result is [ivt_cell] of the two
    cells it is read from. *)
Lemma ivt_data_is_Some (u v : ndarray) (s : nat * nat * nat) :
  broadcast_shapes (shape u) (shape v) = Some s ->
  exists r, ivt_data u v = Some r /\ shape r = s.
Proof.
  intros Hs. rewrite ivt_data_unfold. unfold add, masked_binary. simpl.
  rewrite Hs. simpl. eauto.
Qed.

Lemma ivt_data_None (u v : ndarray) :
  broadcast_shapes (shape u) (shape v) = None -> ivt_data u v = None.
Proof.
  intros Hs. rewrite ivt_data_unfold. unfold add, masked_binary. simpl.
  by rewrite Hs.
Qed.

Lemma ivt_data_shape (u v r : ndarray) :
  ivt_data u v = Some r -> broadcast_shapes (shape u) (shape v) = Some (shape r).
Proof.
  rewrite ivt_data_unfold. unfold add, masked_binary. simpl.
  destruct (broadcast_shapes (shape u) (shape v)); simpl; intros H; by simplify_eq.
Qed.

Lemma ivt_data_item (u v r : ndarray) (t i j : nat) :
  ivt_data u v = Some r ->
  item r t i j = ivt_cell (item_bcast u t i j) (item_bcast v t i j).
Proof.
  rewrite ivt_data_unfold. unfold add, masked_binary. simpl.
  destruct (broadcast_shapes (shape u) (shape v)); simpl; intros H; [|done].
  simplify_eq. simpl. by rewrite !item_bcast_square.
Qed.

Lemma ivt_cell_comm (a b : cell) : ivt_cell a b = ivt_cell b a.
Proof.
  destruct a as [x|], b as [y|]; try reflexivity.
  unfold ivt_cell. simpl. by rewrite F64_facts.add_comm.
Qed.

(** ** Running the monad *)

Section monad.
Context {A B : Type}.
Implicit Types (m : M A) (f : A -> M B).

Lemma bind_Return m f s a s1 : m s = (Return a, s1) -> (m ≫= f) s = f a s1.
Proof. intros H. unfold mbind, M_bind. by rewrite H. Qed.

Lemma bind_Raise m f s e s1 : m s = (Raise e, s1) -> (m ≫= f) s = (Raise e, s1).
Proof. intros H. unfold mbind, M_bind. by rewrite H. Qed.

Lemma bind_inv m f s r s2 :
  (m ≫= f) s = (r, s2) ->
  (exists a s1, m s = (Return a, s1) /\ f a s1 = (r, s2)) \/
  (exists e, m s = (Raise e, s2) /\ r = Raise e).
Proof.
  unfold mbind, M_bind. destruct (m s) as [[a|e] s1]; intros H.
  - left. eauto.
  - right. exists e. by simplify_eq.
Qed.
End monad.

Lemma load_run s l o : heap s !! l = Some o -> load l s = (Return o, s).
Proof. intros H. unfold load. by rewrite H. Qed.

Lemma load_NCVAR_run s l v :
  heap s !! l = Some (ObjNCVAR v) -> load_NCVAR l s = (Return v, s).
Proof. intros H. unfold load_NCVAR. by rewrite (bind_Return _ _ _ _ _ (load_run _ _ _ H)). Qed.

Lemma load_array_run s l a :
  heap s !! l = Some (ObjArray a) -> load_array l s = (Return a, s).
Proof. intros H. unfold load_array. by rewrite (bind_Return _ _ _ _ _ (load_run _ _ _ H)). Qed.

Lemma load_axes_run s l ax :
  heap s !! l = Some (ObjAxes ax) -> load_axes l s = (Return ax, s).
Proof. intros H. unfold load_axes. by rewrite (bind_Return _ _ _ _ _ (load_run _ _ _ H)). Qed.

Lemma attr_data_run s l v :
  heap s !! l = Some (ObjNCVAR v) -> attr_data l s = (Return (data v), s).
Proof. intros H. unfold attr_data. by rewrite (bind_Return _ _ _ _ _ (load_NCVAR_run _ _ _ H)). Qed.

Lemma attr_axislist_run s l v :
  heap s !! l = Some (ObjNCVAR v) -> attr_axislist l s = (Return (axislist v), s).
Proof. intros H. unfold attr_axislist. by rewrite (bind_Return _ _ _ _ _ (load_NCVAR_run _ _ _ H)). Qed.

Lemma getattr_units_run s l v :
  heap s !! l = Some (ObjNCVAR v) ->
  getattr_units l s = (Return (default ""%string (attributes v !! "units"%string)), s).
Proof. intros H. unfold getattr_units. by rewrite (bind_Return _ _ _ _ _ (load_NCVAR_run _ _ _ H)). Qed.

Lemma np_multiply_run s a b x y r :
  heap s !! a = Some (ObjArray x) -> heap s !! b = Some (ObjArray y) ->
  multiply x y = Some r ->
  np_multiply a b s = (Return (length (heap s)), set_heap s (heap s ++ [ObjArray r])).
Proof.
  intros Ha Hb Hr. unfold np_multiply.
  rewrite (bind_Return _ _ _ _ _ (load_array_run _ _ _ Ha)).
  rewrite (bind_Return _ _ _ _ _ (load_array_run _ _ _ Hb)).
  rewrite Hr. reflexivity.
Qed.

Lemma np_add_run s a b x y r :
  heap s !! a = Some (ObjArray x) -> heap s !! b = Some (ObjArray y) ->
  add x y = Some r ->
  np_add a b s = (Return (length (heap s)), set_heap s (heap s ++ [ObjArray r])).
Proof.
  intros Ha Hb Hr. unfold np_add.
  rewrite (bind_Return _ _ _ _ _ (load_array_run _ _ _ Ha)).
  rewrite (bind_Return _ _ _ _ _ (load_array_run _ _ _ Hb)).
  rewrite Hr. reflexivity.
Qed.

Lemma np_add_fail s a b x y :
  heap s !! a = Some (ObjArray x) -> heap s !! b = Some (ObjArray y) ->
  add x y = None ->
  np_add a b s = (Raise ValueError, s).
Proof.
  intros Ha Hb Hr. unfold np_add.
  rewrite (bind_Return _ _ _ _ _ (load_array_run _ _ _ Ha)).
  rewrite (bind_Return _ _ _ _ _ (load_array_run _ _ _ Hb)).
  rewrite Hr. reflexivity.
Qed.

Lemma np_ma_sqrt_run s a x :
  heap s !! a = Some (ObjArray x) ->
  np_ma_sqrt a s = (Return (length (heap s)), set_heap s (heap s ++ [ObjArray (ma_sqrt x)])).
Proof.
  intros Ha. unfold np_ma_sqrt.
  by rewrite (bind_Return _ _ _ _ _ (load_array_run _ _ _ Ha)).
Qed.

Lemma field_of_Some h l v a :
  field_of h l = Some (v, a) <-> h !! l = Some (ObjNCVAR v) /\ h !! data v = Some (ObjArray a).
Proof.
  unfold field_of. split.
  - destruct (h !! l) as [[| |v']|]; try done.
    destruct (h !! data v') as [[a'| |]|] eqn:E; try done. intros ?; by simplify_eq.
  - intros [-> ->]. done.
Qed.

Ltac heap_lookup :=
  cbn [heap set_heap];
  first [ eassumption
        | apply list_lookup_middle; reflexivity
        | apply lookup_app_l_Some; heap_lookup ].

Ltac run H := erewrite bind_Return by (apply H; heap_lookup).

Lemma compute_ivt_Return s uflux vflux nu nv ua va sum :
  field_of (heap s) uflux = Some (nu, ua) -> field_of (heap s) vflux = Some (nv, va) ->
  add (square ua) (square va) = Some sum ->
  compute_ivt uflux vflux s =
    (Return (length (heap s) + 4),
     set_heap s (heap s ++ [ObjArray (square ua); ObjArray (square va); ObjArray sum;
                            ObjArray (ma_sqrt sum); ObjNCVAR (ivt_NCVAR (heap s) nu)])).
Proof.
  intros [Hu Hud]%field_of_Some [Hv Hvd]%field_of_Some Hsum. unfold compute_ivt.
  run attr_data_run. run attr_data_run.
  erewrite bind_Return by (eapply np_multiply_run; [heap_lookup..|apply multiply_square]).
  run attr_data_run. run attr_data_run.
  erewrite bind_Return by (eapply np_multiply_run; [heap_lookup..|apply multiply_square]).
  erewrite bind_Return by (eapply np_add_run; [heap_lookup..|apply Hsum]).
  run np_ma_sqrt_run.
  run attr_axislist_run. run getattr_units_run.
  unfold funcs_NCVAR, alloc, set_heap, ivt_NCVAR. cbn [heap files trace].
  rewrite !length_app. cbn [length]. rewrite <- !app_assoc, <- !Nat.add_assoc.
  reflexivity.
Qed.
Lemma load_NCVAR_fail s l :
  (forall v, heap s !! l <> Some (ObjNCVAR v)) ->
  load_NCVAR l s = (Raise AttributeError, s).
Proof.
  intros H. unfold load_NCVAR, load, mbind, M_bind.
  destruct (heap s !! l) as [[| |v]|] eqn:E; try done. by destruct (H v).
Qed.

Lemma load_array_fail s l :
  (forall a, heap s !! l <> Some (ObjArray a)) ->
  load_array l s = (Raise AttributeError, s).
Proof.
  intros H. unfold load_array, load, mbind, M_bind.
  destruct (heap s !! l) as [[a| |]|] eqn:E; try done. by destruct (H a).
Qed.

Lemma attr_data_fail s l :
  (forall v, heap s !! l <> Some (ObjNCVAR v)) ->
  attr_data l s = (Raise AttributeError, s).
Proof. intros H. unfold attr_data. apply bind_Raise. by apply load_NCVAR_fail. Qed.

Lemma np_multiply_fail s a b :
  (forall x, heap s !! a <> Some (ObjArray x)) ->
  np_multiply a b s = (Raise AttributeError, s).
Proof. intros H. unfold np_multiply. apply bind_Raise. by apply load_array_fail. Qed.

Lemma self_product_fail {B : Type} s l (k : loc -> M B) :
  field_of (heap s) l = None ->
  (u1 ← attr_data l; u2 ← attr_data l; uu ← np_multiply u1 u2; k uu) s
  = (Raise AttributeError, s).
Proof.
  unfold field_of. intros H.
  destruct (heap s !! l) as [o|] eqn:Hl.
  - destruct o as [a|ax|v];
      try (apply bind_Raise, attr_data_fail; intros v'; by rewrite Hl).
    run attr_data_run. run attr_data_run.
    apply bind_Raise, np_multiply_fail. intros x Hx. by rewrite Hx in H.
  - apply bind_Raise, attr_data_fail. intros v'. by rewrite Hl.
Qed.

Lemma self_product_run {B : Type} s l (k : loc -> M B) v a :
  field_of (heap s) l = Some (v, a) ->
  (u1 ← attr_data l; u2 ← attr_data l; uu ← np_multiply u1 u2; k uu) s
  = k (length (heap s)) (set_heap s (heap s ++ [ObjArray (square a)])).
Proof.
  intros [Hl Hd]%field_of_Some.
  run attr_data_run. run attr_data_run.
  erewrite bind_Return by (eapply np_multiply_run; [heap_lookup..|apply multiply_square]).
  reflexivity.
Qed.

Lemma compute_ivt_inv s uflux vflux ivt s' :
  compute_ivt uflux vflux s = (Return ivt, s') ->
  exists nu ua nv va sum,
    field_of (heap s) uflux = Some (nu, ua) /\
    field_of (heap s ++ [ObjArray (square ua)]) vflux = Some (nv, va) /\
    add (square ua) (square va) = Some sum /\
    ivt = length (heap s) + 4 /\
    s' = set_heap s (heap s ++ [ObjArray (square ua); ObjArray (square va); ObjArray sum;
                                ObjArray (ma_sqrt sum); ObjNCVAR (ivt_NCVAR (heap s) nu)]).
Proof.
  unfold compute_ivt.
  destruct (field_of (heap s) uflux) as [[nu ua]|] eqn:Hu.
  2: { by rewrite (self_product_fail _ _ _ Hu). }
  rewrite (self_product_run _ _ _ _ _ Hu).
  destruct (field_of (heap s ++ [ObjArray (square ua)]) vflux) as [[nv va]|] eqn:Hv.
  2: { by rewrite self_product_fail. }
  erewrite self_product_run by exact Hv.
  apply field_of_Some in Hu as [Hu Hud].
  destruct (add (square ua) (square va)) as [sum|] eqn:Hsum.
  2: { erewrite bind_Raise; [done|]. eapply np_add_fail; [heap_lookup..|exact Hsum]. }
  erewrite bind_Return by (eapply np_add_run; [heap_lookup..|apply Hsum]).
  run np_ma_sqrt_run.
  run attr_axislist_run. run getattr_units_run.
  unfold funcs_NCVAR, alloc, set_heap, ivt_NCVAR. cbn [heap files trace].
  rewrite !length_app. cbn [length]. rewrite <- !app_assoc, <- !Nat.add_assoc.
  intros ?; simplify_eq. eauto 10.
Qed.

Lemma field_of_app h h' l v a :
  field_of h l = Some (v, a) -> field_of (h ++ h') l = Some (v, a).
Proof.
  intros [Hl Hd]%field_of_Some. apply field_of_Some.
  split; by apply lookup_app_l_Some.
Qed.

Lemma compute_ivt_ValueError s uflux vflux nu ua nv va :
  field_of (heap s) uflux = Some (nu, ua) ->
  field_of (heap s) vflux = Some (nv, va) ->
  add (square ua) (square va) = None ->
  compute_ivt uflux vflux s =
    (Raise ValueError,
     set_heap s (heap s ++ [ObjArray (square ua); ObjArray (square va)])).
Proof.
  intros Hu Hv Hsum. unfold compute_ivt.
  rewrite (self_product_run _ _ _ _ _ Hu).
  erewrite self_product_run by (apply field_of_app, Hv).
  erewrite bind_Raise; [|eapply np_add_fail; [heap_lookup..|exact Hsum]].
  unfold set_heap. cbn [heap files trace]. by rewrite <- app_assoc.
Qed.

(** ** What a run leaves untouched *)

Section frame.
Context {A B : Type}.

Lemma keeps_heap_objects (m : M A) : keeps_heap m -> keeps_objects m.
Proof. intros H s r s' Hm. by rewrite (H _ _ _ Hm). Qed.

Lemma keeps_objects_bind (m : M A) (f : A -> M B) :
  keeps_objects m -> (forall a, keeps_objects (f a)) -> keeps_objects (m ≫= f).
Proof.
  intros Hm Hf s r s' [(a & s1 & H1 & H2)|(e & H1 & _)]%bind_inv.
  - etrans; [by eapply Hm | by eapply Hf].
  - by eapply Hm.
Qed.

Lemma keeps_heap_bind (m : M A) (f : A -> M B) :
  keeps_heap m -> (forall a, keeps_heap (f a)) -> keeps_heap (m ≫= f).
Proof.
  intros Hm Hf s r s' [(a & s1 & H1 & H2)|(e & H1 & _)]%bind_inv.
  - rewrite (Hf _ _ _ _ H2). by eapply Hm.
  - by eapply Hm.
Qed.

Lemma keeps_heap_ret (a : A) : keeps_heap (mret a : M A).
Proof. intros s r s' H. unfold mret, M_ret in H. by simplify_eq. Qed.

Lemma keeps_heap_raise (e : exn) : keeps_heap (raise e : M A).
Proof. intros s r s' H. unfold raise in H. by simplify_eq. Qed.

Lemma keeps_heap_from_option (e : exn) (o : option A) :
  keeps_heap (from_option e o).
Proof. destruct o; [apply keeps_heap_ret | apply keeps_heap_raise]. Qed.
End frame.

Lemma keeps_heap_emit ev : keeps_heap (emit ev).
Proof. intros s r s' H. unfold emit in H. by simplify_eq. Qed.

Lemma keeps_heap_load l : keeps_heap (load l).
Proof. intros s r s' H. unfold load in H. by destruct (heap s !! l); simplify_eq. Qed.

Lemma keeps_heap_read_files : keeps_heap read_files.
Proof. intros s r s' H. unfold read_files in H. by simplify_eq. Qed.

Lemma keeps_heap_write_file path f : keeps_heap (write_file path f).
Proof. intros s r s' H. unfold write_file in H. by simplify_eq. Qed.

Lemma keeps_heap_os_path_exists path : keeps_heap (os_path_exists path).
Proof. intros s r s' H. unfold os_path_exists in H. by simplify_eq. Qed.

Lemma keeps_objects_alloc o : keeps_objects (alloc o).
Proof.
  intros s r s' H. unfold alloc in H. simplify_eq. simpl. by apply prefix_app_r.
Qed.

Create HintDb frame discriminated.

#[local] Hint Resolve keeps_heap_ret keeps_heap_raise keeps_heap_from_option
  keeps_heap_emit keeps_heap_load keeps_heap_read_files keeps_heap_write_file
  keeps_heap_os_path_exists keeps_objects_alloc : frame.

Ltac frame :=
  repeat first
    [ progress intros
    | apply keeps_heap_bind
    | apply keeps_objects_bind
    | solve [auto with frame]
    | solve [apply keeps_heap_objects; frame]
    | case_match ].

Lemma keeps_heap_load_array l : keeps_heap (load_array l).
Proof. unfold load_array. frame. Qed.

Lemma keeps_heap_load_axes l : keeps_heap (load_axes l).
Proof. unfold load_axes. frame. Qed.

Lemma keeps_heap_load_NCVAR l : keeps_heap (load_NCVAR l).
Proof. unfold load_NCVAR. frame. Qed.

#[local] Hint Resolve keeps_heap_load_array keeps_heap_load_axes
  keeps_heap_load_NCVAR : frame.

Lemma keeps_heap_attr_data l : keeps_heap (attr_data l).
Proof. unfold attr_data. frame. Qed.

Lemma keeps_heap_attr_axislist l : keeps_heap (attr_axislist l).
Proof. unfold attr_axislist. frame. Qed.

Lemma keeps_heap_getattr_units l : keeps_heap (getattr_units l).
Proof. unfold getattr_units. frame. Qed.

Lemma keeps_heap_getTime l : keeps_heap (getTime l).
Proof. unfold getTime. frame. Qed.

Lemma keeps_heap_getLatitude l : keeps_heap (getLatitude l).
Proof. unfold getLatitude. frame. Qed.

Lemma keeps_heap_getLongitude l : keeps_heap (getLongitude l).
Proof. unfold getLongitude. frame. Qed.

Lemma keeps_heap_info l : keeps_heap (info l).
Proof. unfold info. frame. Qed.

Lemma keeps_heap_print p : keeps_heap (print p).
Proof. unfold print. frame. Qed.

Lemma keeps_heap_saveNC path l : keeps_heap (saveNC path l).
Proof. unfold saveNC. frame. Qed.

#[local] Hint Resolve keeps_heap_attr_data keeps_heap_attr_axislist
  keeps_heap_getattr_units keeps_heap_getTime keeps_heap_getLatitude
  keeps_heap_getLongitude keeps_heap_info keeps_heap_print keeps_heap_saveNC : frame.

Lemma keeps_heap_for_each {A : Type} (l : list A) (body : A -> M unit) :
  (forall x, keeps_heap (body x)) -> keeps_heap (for_each l body).
Proof. intros H. induction l as [|x l IH]; simpl; frame. Qed.

Lemma keeps_objects_np_multiply a b : keeps_objects (np_multiply a b).
Proof. unfold np_multiply. frame. Qed.

Lemma keeps_objects_np_add a b : keeps_objects (np_add a b).
Proof. unfold np_add. frame. Qed.

Lemma keeps_objects_np_ma_sqrt a : keeps_objects (np_ma_sqrt a).
Proof. unfold np_ma_sqrt. frame. Qed.

Lemma keeps_objects_funcs_NCVAR d v axl attrs : keeps_objects (funcs_NCVAR d v axl attrs).
Proof. unfold funcs_NCVAR. frame. Qed.

#[local] Hint Resolve keeps_objects_np_multiply keeps_objects_np_add
  keeps_objects_np_ma_sqrt keeps_objects_funcs_NCVAR : frame.

Lemma keeps_objects_compute_ivt uflux vflux : keeps_objects (compute_ivt uflux vflux).
Proof. unfold compute_ivt. frame. Qed.

Lemma keeps_heap_save_ivt ivt : keeps_heap (save_ivt ivt).
Proof. unfold save_ivt. frame. Qed.

Lemma keeps_heap_plot_panel uflux time_str p : keeps_heap (plot_panel uflux time_str p).
Proof. unfold plot_panel. destruct p. frame. Qed.

Lemma keeps_heap_plot_figure uflux vflux ivt : keeps_heap (plot_figure uflux vflux ivt).
Proof.
  unfold plot_figure.
  repeat (apply keeps_heap_bind; [solve [auto with frame]|intros]).
  apply keeps_heap_bind; [|auto with frame].
  apply keeps_heap_for_each. intros. apply keeps_heap_plot_panel.
Qed.

(** ** The input check *)

Lemma os_path_exists_run s path :
  os_path_exists path s =
    (Return (bool_decide (is_Some (files s !! path))), add_trace s [Exists path]).
Proof. reflexivity. Qed.

Lemma check_inputs_no_u s :
  files s !! UFLUX_FILE = None ->
  check_inputs s = (Raise (Exception UFLUX_not_found), add_trace s [Exists UFLUX_FILE]).
Proof.
  intros Hu. unfold check_inputs.
  rewrite (bind_Return _ _ _ _ _ (os_path_exists_run _ _)).
  rewrite Hu. rewrite bool_decide_eq_false_2 by (by intros [? ?]). reflexivity.
Qed.

Lemma check_inputs_no_v s :
  is_Some (files s !! UFLUX_FILE) -> files s !! VFLUX_FILE = None ->
  check_inputs s =
    (Raise (Exception VFLUX_not_found),
     add_trace s [Exists UFLUX_FILE; Exists VFLUX_FILE]).
Proof.
  intros Hu Hv. unfold check_inputs.
  rewrite (bind_Return _ _ _ _ _ (os_path_exists_run _ _)).
  rewrite bool_decide_eq_true_2 by done. cbn [negb].
  rewrite (bind_Return _ _ _ _ _ (os_path_exists_run _ _)).
  cbn [add_trace files]. rewrite Hv.
  rewrite bool_decide_eq_false_2 by (by intros [? ?]). cbn [negb].
  unfold raise, add_trace. cbn [heap files trace]. by rewrite <- app_assoc.
Qed.

Lemma check_inputs_ok s :
  is_Some (files s !! UFLUX_FILE) -> is_Some (files s !! VFLUX_FILE) ->
  check_inputs s = (Return tt, add_trace s [Exists UFLUX_FILE; Exists VFLUX_FILE]).
Proof.
  intros Hu Hv. unfold check_inputs.
  rewrite (bind_Return _ _ _ _ _ (os_path_exists_run _ _)).
  rewrite bool_decide_eq_true_2 by done. cbn [negb].
  rewrite (bind_Return _ _ _ _ _ (os_path_exists_run _ _)).
  cbn [add_trace files]. rewrite bool_decide_eq_true_2 by done. cbn [negb].
  unfold mret, M_ret, add_trace. cbn [heap files trace]. by rewrite <- app_assoc.
Qed.

(** C2. A missing input file stops the notebook with a fatal error that
    names it.  When the u-file is missing the only thing done is its
    existence check: the v-file is not checked, no file is opened, nothing
    is computed.  When the u-file is there and the v-file is missing, both
    checks are done and again no file is opened. *)
Theorem missing_input_file_is_fatal (s : state) :
  (files s !! UFLUX_FILE = None ->
   notebook s =
     (Raise (Exception UFLUX_not_found), add_trace s [Exists UFLUX_FILE])) /\
  (is_Some (files s !! UFLUX_FILE) -> files s !! VFLUX_FILE = None ->
   notebook s =
     (Raise (Exception VFLUX_not_found),
      add_trace s [Exists UFLUX_FILE; Exists VFLUX_FILE])) /\
  String.prefix "UFLUX_FILE not found" UFLUX_not_found = true /\
  String.prefix "VFLUX_FILE not found" VFLUX_not_found = true.
Proof.
  split; [|split; [|split; reflexivity]].
  - intros Hu. unfold notebook. apply bind_Raise. by apply check_inputs_no_u.
  - intros Hu Hv. unfold notebook. apply bind_Raise. by apply check_inputs_no_v.
Qed.

(** ** Saving and reading back *)

Lemma saveNC_run s path var v d ax :
  heap s !! var = Some (ObjNCVAR v) ->
  heap s !! data v = Some (ObjArray d) ->
  heap s !! axislist v = Some (ObjAxes ax) ->
  saveNC path var s =
    (Return tt,
     {| heap := heap s;
        files := <[path := {[ var_id v := {| nc_data := d; nc_axes := ax;
                                             nc_attrs := attributes v |} ]}]> (files s);
        trace := trace s ++ [Create path] |}).
Proof.
  intros Hv Hd Hax. unfold saveNC.
  run load_NCVAR_run. run load_array_run. run load_axes_run. reflexivity.
Qed.

Lemma readNC_run s path v f var :
  files s !! path = Some f -> f !! v = Some var ->
  readNC path v s =
    (Return (length (heap s) + 2),
     {| heap := heap s ++
                [ObjArray (nc_data var); ObjAxes (nc_axes var);
                 ObjNCVAR {| data := length (heap s); var_id := v;
                             axislist := length (heap s) + 1;
                             attributes := nc_attrs var |}];
        files := files s;
        trace := trace s ++ [Open path] |}).
Proof.
  intros Hf Hv. unfold readNC, emit, read_files, funcs_NCVAR, alloc.
  unfold mbind, M_bind. cbn [heap files trace]. rewrite Hf. cbn [from_option mret M_ret].
  rewrite Hv. cbn [from_option mret M_ret heap files trace].
  rewrite !length_app. cbn [length]. rewrite <- !app_assoc, <- !Nat.add_assoc.
  reflexivity.
Qed.

Lemma save_ivt_run s var v d ax :
  heap s !! var = Some (ObjNCVAR v) ->
  heap s !! data v = Some (ObjArray d) ->
  heap s !! axislist v = Some (ObjAxes ax) ->
  save_ivt var s =
    (Return tt,
     {| heap := heap s;
        files := <[OUTPUTFILE := {[ var_id v := {| nc_data := d; nc_axes := ax;
                                                   nc_attrs := attributes v |} ]}]> (files s);
        trace := trace s ++
          [Print (PStr (nl +:+ "# Saving output to:" +:+ nl +:+ " " +:+ OUTPUTFILE));
           Create OUTPUTFILE] |}).
Proof.
  intros Hv Hd Hax. unfold save_ivt, print.
  erewrite bind_Return by reflexivity.
  erewrite saveNC_run by (cbn [heap]; eassumption).
  cbn [heap files trace]. by rewrite <- app_assoc.
Qed.

(** ** The claims about the magnitude's cells *)

(** C3. If the value of either input field is masked at a position, the
    magnitude is masked at that position: a mask goes through the
    products, the sum and the root. *)
Theorem masked_input_gives_masked_output (u v r : ndarray) (t i j : nat) :
  ivt_data u v = Some r ->
  in_range (shape u) t i j -> in_range (shape v) t i j ->
  item u t i j = None \/ item v t i j = None ->
  in_range (shape r) t i j /\ item r t i j = None.
Proof.
  intros Hr Hu Hv Hmask. split.
  - eapply broadcast_shapes_in_range; eauto using ivt_data_shape.
  - rewrite (ivt_data_item _ _ _ _ _ _ Hr), !item_bcast_in_range by done.
    destruct Hmask as [-> | ->]; [done|].
    by destruct (item u t i j).
Qed.

Lemma masked_input_gives_masked_output_witness :
  in_range (1, 1, 1) 0 0 0 /\
  item (ma_sqrt (full (1, 1, 1) None)) 0 0 0 = None.
Proof.
  apply (masked_input_gives_masked_output
           (full (1, 1, 1) None) (one_cell 4) (ma_sqrt (full (1, 1, 1) None)) 0 0 0).
  - reflexivity.
  - simpl. lia.
  - simpl. lia.
  - left. reflexivity.
Defined.

(** C7. The magnitude does not depend on the order of its two operands:
    for equally shaped fields, both orders succeed and give the same
    shape and the same cells. *)
Theorem magnitude_commutes (u v : ndarray) :
  shape u = shape v ->
  exists r r',
    ivt_data u v = Some r /\ ivt_data v u = Some r' /\
    shape r = shape r' /\
    forall t i j, item r t i j = item r' t i j.
Proof.
  intros Hs.
  destruct (ivt_data_is_Some u v (shape u)) as (r & Hr & Hsr).
  { rewrite <- Hs. apply broadcast_shapes_diag. }
  destruct (ivt_data_is_Some v u (shape u)) as (r' & Hr' & Hsr').
  { rewrite <- Hs. apply broadcast_shapes_diag. }
  exists r, r'. repeat split; [done..|congruence|].
  intros t i j.
  rewrite (ivt_data_item _ _ _ _ _ _ Hr), (ivt_data_item _ _ _ _ _ _ Hr').
  apply ivt_cell_comm.
Qed.

Lemma magnitude_commutes_witness :
  exists r r',
    ivt_data (one_cell 3) (one_cell 4) = Some r /\
    ivt_data (one_cell 4) (one_cell 3) = Some r' /\
    shape r = shape r' /\
    forall t i j, item r t i j = item r' t i j.
Proof. apply (magnitude_commutes (one_cell 3) (one_cell 4)). reflexivity. Defined.

(** ** The claims about the derived field *)

Lemma lookup_app_plus {A : Type} (h l : list A) (k : nat) :
  (h ++ l) !! (length h + k) = l !! k.
Proof. rewrite lookup_app_r by lia. f_equal. lia. Qed.

Lemma ivt_attributes_list (units : string) :
  ivt_attributes units =
  list_to_map
    [("name", "ivt"); ("long_name", "integrated vapor transport (IVT)");
     ("standard_name", "integrated_vapor_transport");
     ("title", "integrated vapor transport (IVT)"); ("units", units)]%string.
Proof. reflexivity. Qed.

(** C4. The metadata of the derived field is the fixed block of name,
    long name, standard name and title, together with a units entry that
    is the units attribute of the first input field when it has one and
    the empty string when it has none. *)
Theorem ivt_metadata (s : state) (uflux vflux ivt : loc) (s' : state) :
  compute_ivt uflux vflux s = (Return ivt, s') ->
  exists nu ni,
    heap s !! uflux = Some (ObjNCVAR nu) /\
    heap s' !! ivt = Some (ObjNCVAR ni) /\
    var_id ni = "ivt"%string /\
    attributes ni =
      list_to_map
        [("name", "ivt"); ("long_name", "integrated vapor transport (IVT)");
         ("standard_name", "integrated_vapor_transport");
         ("title", "integrated vapor transport (IVT)");
         ("units", match attributes nu !! "units"%string with
                   | Some units => units
                   | None => ""
                   end)]%string.
Proof.
  intros (nu & ua & nv & va & sum & Hu & _ & _ & -> & ->)%compute_ivt_inv.
  apply field_of_Some in Hu as [Hu _].
  exists nu, (ivt_NCVAR (heap s) nu). split; [done|]. split; [|done].
  cbn [heap set_heap]. by rewrite lookup_app_plus.
Qed.

Lemma ivt_metadata_witness :
  exists nu ni,
    heap (loaded (one_cell 3) (one_cell 4)) !! 2 = Some (ObjNCVAR nu) /\
    heap (compute_ivt 2 5 (loaded (one_cell 3) (one_cell 4))).2 !! 10
      = Some (ObjNCVAR ni) /\
    var_id ni = "ivt"%string /\
    attributes ni =
      list_to_map
        [("name", "ivt"); ("long_name", "integrated vapor transport (IVT)");
         ("standard_name", "integrated_vapor_transport");
         ("title", "integrated vapor transport (IVT)");
         ("units", match attributes nu !! "units"%string with
                   | Some units => units
                   | None => ""
                   end)]%string.
Proof.
  apply (ivt_metadata (loaded (one_cell 3) (one_cell 4)) 2 5 10).
  vm_compute. reflexivity.
Defined.

(** C5. The axes of the derived field are those of the first input
    field: the derived field refers to the very axis list of [uflux],
    which the computation leaves as it was, whatever the second input is;
    and after the field is saved, reading it back gives the same axis
    values. *)
Theorem ivt_axes_are_the_first_input_axes
    (s : state) (uflux vflux ivt : loc) (s' : state) :
  compute_ivt uflux vflux s = (Return ivt, s') ->
  exists nu ni,
    heap s !! uflux = Some (ObjNCVAR nu) /\
    heap s' !! ivt = Some (ObjNCVAR ni) /\
    axislist ni = axislist nu /\
    forall ax, heap s !! axislist nu = Some (ObjAxes ax) ->
      heap s' !! axislist ni = Some (ObjAxes ax) /\
      exists s1 back s2 nb,
        save_ivt ivt s' = (Return tt, s1) /\
        readNC OUTPUTFILE "ivt" s1 = (Return back, s2) /\
        heap s2 !! back = Some (ObjNCVAR nb) /\
        heap s2 !! axislist nb = Some (ObjAxes ax).
Proof.
  intros (nu & ua & nv & va & sum & Hu & _ & _ & -> & ->)%compute_ivt_inv.
  apply field_of_Some in Hu as [Hu Hud].
  exists nu, (ivt_NCVAR (heap s) nu).
  split; [done|]. split; [by cbn [heap set_heap]; rewrite lookup_app_plus|].
  split; [done|]. intros ax Hax. cbn [ivt_NCVAR axislist heap set_heap].
  split; [by apply lookup_app_l_Some|].
  eexists _, _, _, _. split; [|split; [|split]].
  - eapply save_ivt_run; cbn [heap set_heap].
    + by rewrite lookup_app_plus.
    + cbn [ivt_NCVAR data]. by rewrite lookup_app_plus.
    + cbn [ivt_NCVAR axislist]. by apply lookup_app_l_Some.
  - eapply readNC_run; cbn [files].
    + apply lookup_insert_eq.
    + cbn [ivt_NCVAR var_id]. apply lookup_singleton_eq.
  - cbn [heap]. by rewrite lookup_app_plus.
  - cbn [heap axislist nc_axes]. by rewrite lookup_app_plus.
Qed.

Lemma ivt_axes_are_the_first_input_axes_witness :
  exists nu ni,
    heap (loaded (one_cell 3) (one_cell 4)) !! 2 = Some (ObjNCVAR nu) /\
    heap (compute_ivt 2 5 (loaded (one_cell 3) (one_cell 4))).2 !! 10
      = Some (ObjNCVAR ni) /\
    axislist ni = axislist nu /\
    forall ax,
      heap (loaded (one_cell 3) (one_cell 4)) !! axislist nu = Some (ObjAxes ax) ->
      heap (compute_ivt 2 5 (loaded (one_cell 3) (one_cell 4))).2 !! axislist ni
        = Some (ObjAxes ax) /\
      exists s1 back s2 nb,
        save_ivt 10 (compute_ivt 2 5 (loaded (one_cell 3) (one_cell 4))).2
          = (Return tt, s1) /\
        readNC OUTPUTFILE "ivt" s1 = (Return back, s2) /\
        heap s2 !! back = Some (ObjNCVAR nb) /\
        heap s2 !! axislist nb = Some (ObjAxes ax).
Proof.
  apply (ivt_axes_are_the_first_input_axes (loaded (one_cell 3) (one_cell 4)) 2 5 10).
  vm_compute. reflexivity.
Defined.

(** ** Shapes that differ *)

Lemma add_square_shapes (ua va : ndarray) :
  add (square ua) (square va) = None <->
  broadcast_shapes (shape ua) (shape va) = None.
Proof.
  unfold add, masked_binary. cbn [square shape].
  destruct (broadcast_shapes (shape ua) (shape va)); simpl; split; done.
Qed.

(** C6 (as the code has it).  Nothing compares the two shapes before the
    magnitude is computed.  When the shapes cannot be broadcast together,
    the sum fails with the numeric layer's [ValueError] after the two
    products were made; the error is not handled, so the last cell ends
    with it, no derived field exists and no file is written.  When they
    can be broadcast together, equal or not, the computation returns a
    derived field whose data has the broadcast shape. *)
Theorem shape_mismatch_fails_iff_not_broadcastable
    (s : state) (uflux vflux : loc) (nu nv : NCVAR) (ua va : ndarray) :
  field_of (heap s) uflux = Some (nu, ua) ->
  field_of (heap s) vflux = Some (nv, va) ->
  match broadcast_shapes (shape ua) (shape va) with
  | None =>
      let failed :=
        set_heap s (heap s ++ [ObjArray (square ua); ObjArray (square va)]) in
      compute_ivt uflux vflux s = (Raise ValueError, failed) /\
      last_cell uflux vflux s = (Raise ValueError, failed)
  | Some sh =>
      exists ivt s' ni r,
        compute_ivt uflux vflux s = (Return ivt, s') /\
        field_of (heap s') ivt = Some (ni, r) /\
        ivt_data ua va = Some r /\ shape r = sh
  end.
Proof.
  intros Hu Hv.
  destruct (broadcast_shapes (shape ua) (shape va)) as [sh|] eqn:Hsh.
  - destruct (add (square ua) (square va)) as [sum|] eqn:Hsum.
    2: { apply add_square_shapes in Hsum. congruence. }
    eexists _, _, (ivt_NCVAR (heap s) nu), (ma_sqrt sum). split; [|split; [|split]].
    + by eapply compute_ivt_Return.
    + apply field_of_Some. cbn [heap set_heap ivt_NCVAR data].
      by rewrite !lookup_app_plus.
    + rewrite ivt_data_unfold, Hsum. done.
    + destruct (ivt_data_is_Some ua va sh Hsh) as (r & Hr & <-).
      rewrite ivt_data_unfold, Hsum in Hr. simpl in Hr. by simplify_eq.
  - apply add_square_shapes in Hsh.
    pose proof (compute_ivt_ValueError _ _ _ _ _ _ _ Hu Hv Hsh) as Hfail.
    split; [done|]. unfold last_cell. by apply bind_Raise.
Qed.

Lemma shape_mismatch_fails_iff_not_broadcastable_witness :
  let s := loaded (full (2, 1, 1) (Some 3%float)) (full (3, 1, 1) (Some 4%float)) in
  let failed :=
    set_heap s (heap s ++ [ObjArray (square (full (2, 1, 1) (Some 3%float)));
                           ObjArray (square (full (3, 1, 1) (Some 4%float)))]) in
  compute_ivt 2 5 s = (Raise ValueError, failed) /\
  last_cell 2 5 s = (Raise ValueError, failed).
Proof.
  apply (shape_mismatch_fails_iff_not_broadcastable
           (loaded (full (2, 1, 1) (Some 3%float)) (full (3, 1, 1) (Some 4%float)))
           2 5
           {| data := 0; var_id := "p71.162"; axislist := 1; attributes := u_attrs |}
           {| data := 3; var_id := "p72.162"; axislist := 4; attributes := ∅ |}
           (full (2, 1, 1) (Some 3%float)) (full (3, 1, 1) (Some 4%float)));
    reflexivity.
Defined.

(** Against C6 as stated: a field of two time steps and a field of one
    time step have unequal shapes, yet the magnitude is computed, by
    broadcasting the single time step, and a derived field is made. *)
Lemma unequal_shapes_may_broadcast :
  let u := full (2, 1, 1) (Some 3%float) in
  let v := full (1, 1, 1) (Some 4%float) in
  shape u <> shape v /\
  (exists r, ivt_data u v = Some r /\ shape r = (2, 1, 1) /\
             item r 0 0 0 = Some 5%float /\ item r 1 0 0 = Some 5%float) /\
  (compute_ivt 2 5 (loaded u v)).1 = Return 10.
Proof.
  split; [discriminate|]. split; [|vm_compute; reflexivity].
  eexists. split; [reflexivity|]. vm_compute. done.
Qed.

(** ** Nothing is mutated *)

(** C9. No field is changed after it was created.  Whatever the outcome,
    computing the magnitude leaves every object that existed before (the
    input fields, their data arrays and their axis lists among them) as
    it was, and saving and plotting leave the whole object store as it
    was. *)
Theorem fields_are_not_mutated (s : state) (uflux vflux ivt : loc) :
  (forall r s', compute_ivt uflux vflux s = (r, s') ->
     forall l o, heap s !! l = Some o -> heap s' !! l = Some o) /\
  (forall r s', save_ivt ivt s = (r, s') -> heap s' = heap s) /\
  (forall r s', plot_figure uflux vflux ivt s = (r, s') -> heap s' = heap s).
Proof.
  split; [|split].
  - intros r s' Hrun l o Hl.
    eapply prefix_lookup_Some; [exact Hl|].
    by eapply keeps_objects_compute_ivt.
  - intros r s' Hrun. by eapply keeps_heap_save_ivt.
  - intros r s' Hrun. by eapply keeps_heap_plot_figure.
Qed.

(** ** The figure *)

Lemma getitem_at_time (a : ndarray) (k : nat) :
  getitem a k = if (k <? time_steps a)%nat then Some (at_time a k) else None.
Proof.
  unfold getitem, time_steps, at_time. by destruct (shape a) as [[nt ni] nj].
Qed.

Lemma axes_of_Some h v ax :
  axes_of h v = Some ax <-> h !! axislist v = Some (ObjAxes ax).
Proof.
  unfold axes_of. split.
  - destruct (h !! axislist v) as [[|ax'|]|]; try done. intros ?; by simplify_eq.
  - by intros ->.
Qed.

Lemma getTime_run s l v ax :
  heap s !! l = Some (ObjNCVAR v) -> heap s !! axislist v = Some (ObjAxes ax) ->
  getTime l s = (Return (time_axis ax), s).
Proof. intros Hl Hax. unfold getTime. run load_NCVAR_run. by run load_axes_run. Qed.

Lemma getLatitude_run s l v ax :
  heap s !! l = Some (ObjNCVAR v) -> heap s !! axislist v = Some (ObjAxes ax) ->
  getLatitude l s = (Return (latitude_axis ax), s).
Proof. intros Hl Hax. unfold getLatitude. run load_NCVAR_run. by run load_axes_run. Qed.

Lemma getLongitude_run s l v ax :
  heap s !! l = Some (ObjNCVAR v) -> heap s !! axislist v = Some (ObjAxes ax) ->
  getLongitude l s = (Return (longitude_axis ax), s).
Proof. intros Hl Hax. unfold getLongitude. run load_NCVAR_run. by run load_axes_run. Qed.

Lemma emit_run s ev : emit ev s = (Return tt, add_trace s [ev]).
Proof. reflexivity. Qed.

Lemma add_trace_add_trace s evs evs' :
  add_trace (add_trace s evs) evs' = add_trace s (evs ++ evs').
Proof. unfold add_trace. cbn [heap files trace]. by rewrite <- app_assoc. Qed.

Lemma plot_panel_run s uflux v ax time_str ii vii title :
  heap s !! uflux = Some (ObjNCVAR v) -> heap s !! axislist v = Some (ObjAxes ax) ->
  titles !! ii = Some title ->
  plot_panel uflux time_str (ii, vii) s =
    (Return tt,
     add_trace s [AddSubplot 3 1 (ii + 1); Isofill vii 10 1 2;
                  Plot2 vii time_str title (longitude_axis ax) (latitude_axis ax)]).
Proof.
  intros Hl Hax Ht. unfold plot_panel.
  rewrite (bind_Return _ _ _ _ _ (emit_run _ _)).
  rewrite (bind_Return _ _ _ _ _ (emit_run _ _)).
  rewrite Ht. cbn [from_option].
  erewrite bind_Return by reflexivity.
  erewrite bind_Return by (eapply getLongitude_run; cbn [heap add_trace]; eassumption).
  erewrite bind_Return by (eapply getLatitude_run; cbn [heap add_trace]; eassumption).
  rewrite emit_run, !add_trace_add_trace. reflexivity.
Qed.

(** The plotting part, once the three fields are there: it needs index
    [idx] of the time axis and of the three data arrays, in this order. *)
Lemma plot_figure_run s uflux vflux ivt nu ua ax nv va ni ia :
  field_of (heap s) uflux = Some (nu, ua) -> axes_of (heap s) nu = Some ax ->
  field_of (heap s) vflux = Some (nv, va) ->
  field_of (heap s) ivt = Some (ni, ia) ->
  plot_figure uflux vflux ivt s =
    match time_axis ax !! idx, getitem ua idx, getitem va idx, getitem ia idx with
    | Some time_str, Some u_idx, Some v_idx, Some ivt_idx =>
        (Return tt,
         add_trace s (figure_events u_idx v_idx ivt_idx time_str
                        (longitude_axis ax) (latitude_axis ax)))
    | _, _, _, _ => (Raise IndexError, add_trace s [Figure])
    end.
Proof.
  intros [Hu Hud]%field_of_Some Hax%axes_of_Some [Hv Hvd]%field_of_Some
         [Hi Hid]%field_of_Some.
  unfold plot_figure.
  rewrite (bind_Return _ _ _ _ _ (emit_run _ _)).
  erewrite bind_Return by (eapply getTime_run; cbn [heap add_trace]; eassumption).
  destruct (time_axis ax !! idx) as [time_str|]; [|reflexivity].
  erewrite bind_Return by reflexivity.
  erewrite bind_Return by (eapply attr_data_run; cbn [heap add_trace]; eassumption).
  erewrite bind_Return by (eapply load_array_run; cbn [heap add_trace]; eassumption).
  destruct (getitem ua idx) as [u_idx|]; [|reflexivity].
  erewrite bind_Return by reflexivity.
  erewrite bind_Return by (eapply attr_data_run; cbn [heap add_trace]; eassumption).
  erewrite bind_Return by (eapply load_array_run; cbn [heap add_trace]; eassumption).
  destruct (getitem va idx) as [v_idx|]; [|reflexivity].
  erewrite bind_Return by reflexivity.
  erewrite bind_Return by (eapply attr_data_run; cbn [heap add_trace]; eassumption).
  erewrite bind_Return by (eapply load_array_run; cbn [heap add_trace]; eassumption).
  destruct (getitem ia idx) as [ivt_idx|]; [|reflexivity].
  erewrite bind_Return by reflexivity.
  cbn [enumerate length seq zip zip_with for_each].
  erewrite bind_Return.
  2: { erewrite bind_Return
         by (eapply plot_panel_run; [cbn [heap add_trace]; eassumption..|reflexivity]).
       erewrite bind_Return
         by (eapply plot_panel_run; [cbn [heap add_trace]; eassumption..|reflexivity]).
       erewrite bind_Return
         by (eapply plot_panel_run; [cbn [heap add_trace]; eassumption..|reflexivity]).
       reflexivity. }
  rewrite emit_run, !add_trace_add_trace. reflexivity.
Qed.

Lemma bind_Return_inv {A B : Type} (m : M A) (f : A -> M B) s b s2 :
  (m ≫= f) s = (Return b, s2) ->
  exists a s1, m s = (Return a, s1) /\ f a s1 = (Return b, s2).
Proof. intros [?|(e & _ & ?)]%bind_inv; done. Qed.

Lemma load_Return l s o s' :
  load l s = (Return o, s') -> heap s !! l = Some o /\ s' = s.
Proof. unfold load. destruct (heap s !! l); intros ?; by simplify_eq. Qed.

Lemma load_NCVAR_Return l s v s' :
  load_NCVAR l s = (Return v, s') -> heap s !! l = Some (ObjNCVAR v) /\ s' = s.
Proof.
  unfold load_NCVAR. intros (o & s1 & [Ho ->]%load_Return & H)%bind_Return_inv.
  destruct o; try done. unfold mret, M_ret in H. by simplify_eq.
Qed.

Lemma load_array_Return l s a s' :
  load_array l s = (Return a, s') -> heap s !! l = Some (ObjArray a) /\ s' = s.
Proof.
  unfold load_array. intros (o & s1 & [Ho ->]%load_Return & H)%bind_Return_inv.
  destruct o; try done. unfold mret, M_ret in H. by simplify_eq.
Qed.

Lemma load_axes_Return l s ax s' :
  load_axes l s = (Return ax, s') -> heap s !! l = Some (ObjAxes ax) /\ s' = s.
Proof.
  unfold load_axes. intros (o & s1 & [Ho ->]%load_Return & H)%bind_Return_inv.
  destruct o; try done. unfold mret, M_ret in H. by simplify_eq.
Qed.

Lemma attr_data_Return l s d s' :
  attr_data l s = (Return d, s') ->
  exists v, heap s !! l = Some (ObjNCVAR v) /\ d = data v /\ s' = s.
Proof.
  unfold attr_data.
  intros (v & s1 & [Hv ->]%load_NCVAR_Return & H)%bind_Return_inv.
  unfold mret, M_ret in H. simplify_eq. eauto.
Qed.

Lemma getTime_Return l s tm s' :
  getTime l s = (Return tm, s') ->
  exists v ax, heap s !! l = Some (ObjNCVAR v) /\
               heap s !! axislist v = Some (ObjAxes ax) /\
               tm = time_axis ax /\ s' = s.
Proof.
  unfold getTime.
  intros (v & s1 & [Hv ->]%load_NCVAR_Return & H)%bind_Return_inv.
  apply bind_Return_inv in H as (ax & s1 & [Hax ->]%load_axes_Return & H).
  unfold mret, M_ret in H. simplify_eq. eauto 10.
Qed.

Lemma from_option_Return {A : Type} (e : exn) (o : option A) s a s' :
  from_option e o s = (Return a, s') -> o = Some a /\ s' = s.
Proof. destruct o; intros H; unfold from_option, mret, M_ret, raise in H; by simplify_eq. Qed.

(** A figure that was completed had all its fields. *)
Lemma plot_figure_Return_inv s uflux vflux ivt s' :
  plot_figure uflux vflux ivt s = (Return tt, s') ->
  exists nu ua ax nv va ni ia,
    field_of (heap s) uflux = Some (nu, ua) /\ axes_of (heap s) nu = Some ax /\
    field_of (heap s) vflux = Some (nv, va) /\
    field_of (heap s) ivt = Some (ni, ia).
Proof.
  unfold plot_figure. intros H.
  apply bind_Return_inv in H as ([] & s1 & Hs1 & H).
  rewrite emit_run in Hs1. simplify_eq.
  apply bind_Return_inv in H as (tm & s1 & (nu & ax & Hu & Hax & -> & ->)%getTime_Return & H).
  apply bind_Return_inv in H as (time_str & s1 & [_ ->]%from_option_Return & H).
  apply bind_Return_inv in H as (ud & s1 & (nu' & Hu' & -> & ->)%attr_data_Return & H).
  apply bind_Return_inv in H as (ua & s1 & [Hud ->]%load_array_Return & H).
  apply bind_Return_inv in H as (u_idx & s1 & [_ ->]%from_option_Return & H).
  apply bind_Return_inv in H as (vd & s1 & (nv & Hv & -> & ->)%attr_data_Return & H).
  apply bind_Return_inv in H as (va & s1 & [Hvd ->]%load_array_Return & H).
  apply bind_Return_inv in H as (v_idx & s1 & [_ ->]%from_option_Return & H).
  apply bind_Return_inv in H as (ivd & s1 & (ni & Hi & -> & ->)%attr_data_Return & H).
  apply bind_Return_inv in H as (ia & s1 & [Hid ->]%load_array_Return & _).
  cbn [heap add_trace] in *. simplify_eq.
  exists nu, ua, ax, nv, va, ni, ia.
  rewrite !field_of_Some, axes_of_Some. done.
Qed.

(** C10. The figure is always made at time index 100: of the time axis of
    [uflux] and of the data of all three fields.  So it is completed only
    when the time axis and each of the three data arrays have at least
    101 time steps, and the panels then show the slices at index 100; and
    when one of them has 100 time steps or fewer, the plotting fails with
    an index error before any panel is drawn. *)
Theorem figure_reads_time_index_100 (s : state) (uflux vflux ivt : loc) :
  idx = 100 /\
  (forall s', plot_figure uflux vflux ivt s = (Return tt, s') ->
     exists nu ua ax nv va ni ia time_str,
       field_of (heap s) uflux = Some (nu, ua) /\ axes_of (heap s) nu = Some ax /\
       field_of (heap s) vflux = Some (nv, va) /\
       field_of (heap s) ivt = Some (ni, ia) /\
       100 < length (time_axis ax) /\
       100 < time_steps ua /\ 100 < time_steps va /\ 100 < time_steps ia /\
       time_axis ax !! 100 = Some time_str /\
       s' = add_trace s
              (figure_events (at_time ua 100) (at_time va 100) (at_time ia 100)
                 time_str (longitude_axis ax) (latitude_axis ax))) /\
  (forall nu ua ax nv va ni ia,
     field_of (heap s) uflux = Some (nu, ua) -> axes_of (heap s) nu = Some ax ->
     field_of (heap s) vflux = Some (nv, va) ->
     field_of (heap s) ivt = Some (ni, ia) ->
     length (time_axis ax) <= 100 \/ time_steps ua <= 100 \/
     time_steps va <= 100 \/ time_steps ia <= 100 ->
     plot_figure uflux vflux ivt s = (Raise IndexError, add_trace s [Figure])).
Proof.
  split; [reflexivity|]. split.
  - intros s' H.
    destruct (plot_figure_Return_inv _ _ _ _ _ H)
      as (nu & ua & ax & nv & va & ni & ia & Hu & Hax & Hv & Hi).
    rewrite (plot_figure_run _ _ _ _ _ _ _ _ _ _ _ Hu Hax Hv Hi) in H.
    rewrite !getitem_at_time in H. unfold idx in H.
    destruct (time_axis ax !! 100) as [time_str|] eqn:Ht; [|done].
    destruct (Nat.ltb_spec 100 (time_steps ua)); [|done].
    destruct (Nat.ltb_spec 100 (time_steps va)); [|done].
    destruct (Nat.ltb_spec 100 (time_steps ia)); [|done].
    apply lookup_lt_Some in Ht as Hlen.
    simplify_eq. eauto 20.
  - intros nu ua ax nv va ni ia Hu Hax Hv Hi Hshort.
    rewrite (plot_figure_run _ _ _ _ _ _ _ _ _ _ _ Hu Hax Hv Hi).
    rewrite !getitem_at_time. unfold idx.
    destruct (time_axis ax !! 100) as [time_str|] eqn:Ht; [|done].
    apply lookup_lt_Some in Ht.
    destruct (Nat.ltb_spec 100 (time_steps ua)); [|done].
    destruct (Nat.ltb_spec 100 (time_steps va)); [|done].
    destruct (Nat.ltb_spec 100 (time_steps ia)); [|done].
    lia.
Qed.

(** ** The value of the magnitude *)

Lemma ivt_cell_Some (x y : float) :
  ivt_cell (Some x) (Some y) =
    if is_finite (sqrt (x * x + y * y)) then Some (sqrt (x * x + y * y)) else None.
Proof.
  unfold ivt_cell. cbn [masked_binary_cell ma_sqrt_cell].
  rewrite F64_facts.sum_of_squares_not_negative, orb_false_r.
  by destruct (is_finite _).
Qed.

(** C1 (as the code has it).  For two fields of the same shape the
    magnitude has that shape, and each of its cells is computed from the
    two cells at the same position and from nothing else: it is masked
    when one of them is masked, and otherwise it is the binary64 value
    [sqrt (x*x + y*y)] when that value is finite and masked when it is
    not.  On the grid of one cell with u = 3.0 and v = 4.0 the magnitude
    is 5.0, and the notebook writes an output file whose only variable is
    [ivt], with that value, the axes of the u field and its units; the
    run then ends in the plotting part, which asks for time index 100. *)
Theorem magnitude_is_computed_cell_by_cell :
  (forall u v : ndarray,
     shape u = shape v ->
     exists r,
       ivt_data u v = Some r /\ shape r = shape u /\
       forall t i j, in_range (shape u) t i j ->
         item r t i j =
           match item u t i j, item v t i j with
           | Some x, Some y =>
               if is_finite (sqrt (x * x + y * y))
               then Some (sqrt (x * x + y * y)) else None
           | _, _ => None
           end) /\
  (exists r, ivt_data (one_cell 3) (one_cell 4) = Some r /\
             shape r = (1, 1, 1) /\ item r 0 0 0 = Some 5%float) /\
  (let '(result, s') := notebook (on_disk (one_cell 3) (one_cell 4)) in
   files s' !! OUTPUTFILE =
     Some {[ "ivt"%string :=
               {| nc_data := one_cell 5; nc_axes := u_axes;
                  nc_attrs := ivt_attributes "kg m**-1 s**-1" |} ]} /\
   result = Raise IndexError).
Proof.
  split; [|split].
  - intros u v Hs.
    destruct (ivt_data_is_Some u v (shape u)) as (r & Hr & Hsr).
    { rewrite <- Hs. apply broadcast_shapes_diag. }
    exists r. split; [done|]. split; [done|]. intros t i j Hin.
    rewrite (ivt_data_item _ _ _ _ _ _ Hr), !item_bcast_in_range by congruence.
    destruct (item u t i j) as [x|], (item v t i j) as [y|]; try done.
    apply ivt_cell_Some.
  - eexists. split; [reflexivity|]. vm_compute. done.
  - vm_compute. done.
Qed.

(** Against C1 as stated: with u = 2^600 and v = 0 on one cell, both
    unmasked, the cell of the magnitude is masked; it is neither the
    binary64 value of the formula (infinity) nor the magnitude 2^600. *)
Lemma overflowing_square_is_masked :
  let u := one_cell 0x1p+600 in
  let v := one_cell 0 in
  shape u = shape v /\
  item u 0 0 0 = Some 0x1p+600%float /\ item v 0 0 0 = Some 0%float /\
  exists r, ivt_data u v = Some r /\
            item r 0 0 0 = None /\
            item r 0 0 0 <> Some (sqrt (0x1p+600 * 0x1p+600 + 0 * 0))%float /\
            sqrt (0x1p+600 * 0x1p+600 + 0 * 0)%float = infinity.
Proof.
  repeat split. eexists. split; [reflexivity|]. vm_compute. done.
Qed.

(** ** The magnitude against a zero field *)

Lemma ivt_cell_zero (x : float) :
  (x =? 0)%float = true \/ F64.square_is_normal x = true ->
  ivt_cell (Some x) (Some 0%float) = Some (abs x).
Proof.
  intros Hx. rewrite ivt_cell_Some.
  assert (sqrt (x * x + 0 * 0)%float = abs x /\ is_finite (abs x) = true)
    as [-> ->]; [|done].
  destruct Hx as [Hx|Hx].
  - by apply F64_facts.sqrt_square_zero.
  - by apply F64_facts.sqrt_square_normal.
Qed.

(** C8 (as the code has it).  Against the all-zero field of the same
    shape, the magnitude of [u] has the shape of [u]; a cell is masked
    where [u] is masked, and it is [abs u] where [u] is zero or has an
    absolute value from 2^-511 up to, but not including, 2^512: the
    values whose square is a normal binary64 number. *)
Theorem magnitude_with_zero_is_abs (u : ndarray) :
  exists r,
    ivt_data u (full (shape u) (Some 0%float)) = Some r /\
    shape r = shape u /\
    forall t i j, in_range (shape u) t i j ->
      match item u t i j with
      | None => item r t i j = None
      | Some x =>
          (x =? 0)%float = true \/ F64.square_is_normal x = true ->
          item r t i j = Some (abs x)
      end.
Proof.
  destruct (ivt_data_is_Some u (full (shape u) (Some 0%float)) (shape u))
    as (r & Hr & Hsr); [apply broadcast_shapes_diag|].
  exists r. split; [done|]. split; [done|]. intros t i j Hin.
  rewrite (ivt_data_item _ _ _ _ _ _ Hr), !item_bcast_in_range by done.
  cbn [full item]. destruct (item u t i j) as [x|]; [|done].
  apply ivt_cell_zero.
Qed.

Lemma magnitude_with_zero_is_abs_witness :
  exists r,
    ivt_data (one_cell (-3)) (one_cell 0) = Some r /\
    item r 0 0 0 = Some 3%float.
Proof.
  destruct (magnitude_with_zero_is_abs (one_cell (-3))) as (r & Hr & _ & Hcell).
  exists r. split; [exact Hr|].
  apply (Hcell 0%nat 0%nat 0%nat).
  - simpl. lia.
  - right. vm_compute. reflexivity.
Defined.

(** Against C8 as stated: the square of u = 2^-600 underflows to zero,
    so that the magnitude of u with a zero field is 0.0 and not
    abs u = 2^-600. *)
Lemma tiny_value_is_not_its_magnitude :
  let u := one_cell 0x1p-600 in
  exists r,
    ivt_data u (full (shape u) (Some 0%float)) = Some r /\
    item u 0 0 0 = Some 0x1p-600%float /\
    item r 0 0 0 = Some 0%float /\
    item r 0 0 0 <> Some (abs 0x1p-600).
Proof.
  eexists. split; [reflexivity|]. vm_compute. done.
Qed.

(** ** The whole notebook *)

Lemma axes_of_app h h' v ax :
  axes_of h v = Some ax -> axes_of (h ++ h') v = Some ax.
Proof. rewrite !axes_of_Some. apply lookup_app_l_Some. Qed.

Lemma info_run s l v d ax :
  heap s !! l = Some (ObjNCVAR v) -> heap s !! data v = Some (ObjArray d) ->
  heap s !! axislist v = Some (ObjAxes ax) ->
  info l s = (Return (PInfo (var_id v) (shape d) ax (attributes v)), s).
Proof.
  intros Hl Hd Hax. unfold info.
  run load_NCVAR_run. run load_array_run. by run load_axes_run.
Qed.


Lemma print_run s p : print p s = (Return tt, add_trace s [Print p]).
Proof. reflexivity. Qed.

Lemma print_latitude_run s l v ax :
  heap s !! l = Some (ObjNCVAR v) -> heap s !! axislist v = Some (ObjAxes ax) ->
  print_latitude l s =
    (Return tt, add_trace s [Print (PStr "Latitude of uflux:");
                             Print (PAxis (latitude_axis ax))]).
Proof.
  intros Hl Hax. unfold print_latitude.
  rewrite (bind_Return _ _ _ _ _ (print_run _ _)).
  erewrite bind_Return by (eapply getLatitude_run; cbn [heap add_trace]; eassumption).
  by rewrite print_run, add_trace_add_trace.
Qed.

Lemma print_longitude_run s l v ax :
  heap s !! l = Some (ObjNCVAR v) -> heap s !! axislist v = Some (ObjAxes ax) ->
  print_longitude l s =
    (Return tt, add_trace s [Print (PStr "Longitude of uflux:");
                             Print (PAxis (longitude_axis ax))]).
Proof.
  intros Hl Hax. unfold print_longitude.
  rewrite (bind_Return _ _ _ _ _ (print_run _ _)).
  erewrite bind_Return by (eapply getLongitude_run; cbn [heap add_trace]; eassumption).
  by rewrite print_run, add_trace_add_trace.
Qed.

Lemma print_time_run s l v ax :
  heap s !! l = Some (ObjNCVAR v) -> heap s !! axislist v = Some (ObjAxes ax) ->
  print_time l s =
    (Return tt, add_trace s [Print (PStr "Time axis of uflux:");
                             Print (PAxis (time_axis ax))]).
Proof.
  intros Hl Hax. unfold print_time.
  rewrite (bind_Return _ _ _ _ _ (print_run _ _)).
  erewrite bind_Return by (eapply getTime_run; cbn [heap add_trace]; eassumption).
  by rewrite print_run, add_trace_add_trace.
Qed.

Lemma print_vflux_run s l v d ax :
  heap s !! l = Some (ObjNCVAR v) -> heap s !! data v = Some (ObjArray d) ->
  heap s !! axislist v = Some (ObjAxes ax) ->
  print_vflux l s =
    (Return tt, add_trace s [Print (PStr "######## Info of uflux ########");
                             Print (PInfo (var_id v) (shape d) ax (attributes v))]).
Proof.
  intros Hl Hd Hax. unfold print_vflux.
  rewrite (bind_Return _ _ _ _ _ (print_run _ _)).
  erewrite bind_Return by (eapply info_run; cbn [heap add_trace]; eassumption).
  by rewrite print_run, add_trace_add_trace.
Qed.


(** ** The theorems at the example inputs *)

Lemma missing_input_file_is_fatal_witness :
  let no_files := {| heap := []; files := ∅; trace := [] |} in
  let only_u :=
    {| heap := []; files := {[ UFLUX_FILE := ∅ ]}; trace := [] |} in
  notebook no_files =
    (Raise (Exception UFLUX_not_found), add_trace no_files [Exists UFLUX_FILE]) /\
  notebook only_u =
    (Raise (Exception VFLUX_not_found),
     add_trace only_u [Exists UFLUX_FILE; Exists VFLUX_FILE]).
Proof.
  split.
  - apply (proj1 (missing_input_file_is_fatal
                    {| heap := []; files := ∅; trace := [] |})).
    reflexivity.
  - apply (proj1 (proj2 (missing_input_file_is_fatal
                    {| heap := []; files := {[ UFLUX_FILE := ∅ ]}; trace := [] |}))).
    + eexists. vm_compute. reflexivity.
    + vm_compute. reflexivity.
Defined.

Lemma fields_are_not_mutated_witness :
  let s := loaded (one_cell 3) (one_cell 4) in
  let s1 := (compute_ivt 2 5 s).2 in
  heap s1 !! 0%nat = Some (ObjArray (one_cell 3)) /\
  heap s1 !! 1%nat = Some (ObjAxes u_axes) /\
  heap (save_ivt 10 s1).2 = heap s1 /\
  heap (plot_figure 2 5 10 s1).2 = heap s1.
Proof.
  pose proof (fields_are_not_mutated (loaded (one_cell 3) (one_cell 4)) 2 5 10)
    as (Hcompute & _ & _).
  pose proof (fields_are_not_mutated
                (compute_ivt 2 5 (loaded (one_cell 3) (one_cell 4))).2 2 5 10)
    as (_ & Hsave & Hplot).
  split; [|split; [|split]].
  - eapply Hcompute; [apply surjective_pairing|reflexivity].
  - eapply Hcompute; [apply surjective_pairing|reflexivity].
  - eapply Hsave. apply surjective_pairing.
  - eapply Hplot. apply surjective_pairing.
Defined.

Lemma figure_reads_time_index_100_witness :
  let short := (compute_ivt 2 5 (loaded (one_cell 3) (one_cell 4))).2 in
  let long :=
    (compute_ivt 2 5
       (loaded_with long_axes (full (101, 1, 1) (Some 3%float))
          (full (101, 1, 1) (Some 4%float)))).2 in
  plot_figure 2 5 10 short = (Raise IndexError, add_trace short [Figure]) /\
  exists nu ua ax nv va ni ia time_str,
    field_of (heap long) 2 = Some (nu, ua) /\ axes_of (heap long) nu = Some ax /\
    field_of (heap long) 5 = Some (nv, va) /\
    field_of (heap long) 10 = Some (ni, ia) /\
    100 < length (time_axis ax) /\
    100 < time_steps ua /\ 100 < time_steps va /\ 100 < time_steps ia /\
    time_axis ax !! 100%nat = Some time_str /\
    (plot_figure 2 5 10 long).2 =
      add_trace long
        (figure_events (at_time ua 100) (at_time va 100) (at_time ia 100)
           time_str (longitude_axis ax) (latitude_axis ax)).
Proof.
  split.
  - eapply (proj2 (proj2 (figure_reads_time_index_100
              (compute_ivt 2 5 (loaded (one_cell 3) (one_cell 4))).2 2 5 10))).
    + reflexivity.
    + reflexivity.
    + reflexivity.
    + reflexivity.
    + left. simpl. lia.
  - apply (proj1 (proj2 (figure_reads_time_index_100
              (compute_ivt 2 5
                 (loaded_with long_axes (full (101, 1, 1) (Some 3%float))
                    (full (101, 1, 1) (Some 4%float)))).2 2 5 10))).
    vm_compute. reflexivity.
Defined.

Lemma magnitude_is_computed_cell_by_cell_witness :
  exists r,
    ivt_data (one_cell 3) (one_cell 4) = Some r /\ shape r = (1, 1, 1) /\
    forall t i j, in_range (1, 1, 1) t i j ->
      item r t i j =
        match item (one_cell 3) t i j, item (one_cell 4) t i j with
        | Some x, Some y =>
            if is_finite (sqrt (x * x + y * y))
            then Some (sqrt (x * x + y * y)) else None
        | _, _ => None
        end.
Proof.
  apply (proj1 magnitude_is_computed_cell_by_cell (one_cell 3) (one_cell 4)).
  reflexivity.
Defined.

(** * Further properties of the notebook's code *)

(** ** What the cells of the magnitude can be *)

Module F64_sign.
Import F64.

Lemma SFmul_abs (prec emax : Z) (x : spec_float) :
  SFmul prec emax (SFabs x) (SFabs x) = SFmul prec emax x x.
Proof. by destruct x as [[]|[]| |[] m e]. Qed.

Lemma square_abs (x : float) : (abs x * abs x)%float = (x * x)%float.
Proof. apply Prim2SF_inj. rewrite !mul_spec, abs_spec. apply SFmul_abs. Qed.

Lemma square_of_equal_abs (x y : float) : abs x = abs y -> (x * x)%float = (y * y)%float.
Proof. intros H. by rewrite <- (square_abs x), <- (square_abs y), H. Qed.

Lemma square_opp (x : float) : (- x * - x)%float = (x * x)%float.
Proof.
  apply Prim2SF_inj. rewrite !mul_spec, opp_spec.
  by destruct (Prim2SF x) as [[]|[]| |[] m e].
Qed.

Lemma SFsqrt_nonneg (x : spec_float) : nonneg x -> nonneg (SFsqrt prec emax x).
Proof.
  destruct x as [[]|[]| |[] m e]; try done. intros _. cbn [SFsqrt].
  destruct (SFsqrt_core_binary prec emax (Z.pos m) e) as [[mz ez] lz].
  apply F64_facts.binary_round_aux_nonneg.
Qed.

Lemma sqrt_sum_of_squares_nonneg (x y : float) :
  nonneg (Prim2SF (sqrt (x * x + y * y))).
Proof.
  rewrite sqrt_spec, add_spec, !mul_spec.
  apply SFsqrt_nonneg, F64_facts.SFadd_nonneg; apply F64_facts.SFmul_self_nonneg.
Qed.

Lemma finite_nonneg_above_zero (x : float) :
  nonneg (Prim2SF x) -> is_finite x = true -> (0 <=? x)%float = true.
Proof.
  intros Hx Hfin. rewrite leb_spec, F64_facts.Prim2SF_zero.
  unfold is_finite, is_nan, is_infinity in Hfin.
  rewrite !FloatAxioms.eqb_spec, abs_spec, F64_facts.Prim2SF_infinity in Hfin.
  destruct (Prim2SF x) as [[]|[]| |[] m e]; try done.
Qed.

End F64_sign.

Lemma ivt_cell_Some_inv (a b : cell) (r : float) :
  ivt_cell a b = Some r ->
  exists x y, a = Some x /\ b = Some y /\
              r = sqrt (x * x + y * y) /\ is_finite r = true.
Proof.
  destruct a as [x|], b as [y|]; try done.
  rewrite ivt_cell_Some. destruct (is_finite _) eqn:Hfin; [|done].
  intros ?; simplify_eq. eauto 10.
Qed.

(** Every cell of the magnitude that is not masked holds a finite number
    that is not below zero: the result has no NaN, no infinity and no
    negative value, whatever the inputs hold. *)
Theorem unmasked_cells_are_finite_and_not_negative
    (u v r : ndarray) (t i j : nat) (x : float) :
  ivt_data u v = Some r -> item r t i j = Some x ->
  is_finite x = true /\ (0 <=? x)%float = true.
Proof.
  intros Hr Hx. rewrite (ivt_data_item _ _ _ _ _ _ Hr) in Hx.
  apply ivt_cell_Some_inv in Hx as (p & q & _ & _ & -> & Hfin).
  split; [exact Hfin|].
  apply F64_sign.finite_nonneg_above_zero; [|exact Hfin].
  apply F64_sign.sqrt_sum_of_squares_nonneg.
Qed.

Lemma unmasked_cells_are_finite_and_not_negative_witness :
  is_finite 5 = true /\ (0 <=? 5)%float = true.
Proof.
  apply (unmasked_cells_are_finite_and_not_negative
           (one_cell (-3)) (one_cell 4) (one_cell 5) 0 0 0 5).
  - vm_compute. reflexivity.
  - reflexivity.
Defined.

Lemma ivt_cell_equal_abs (a a' b b' : cell) :
  abs <$> a' = abs <$> a -> abs <$> b' = abs <$> b ->
  ivt_cell a' b' = ivt_cell a b.
Proof.
  destruct a as [x|], a' as [x'|], b as [y|], b' as [y'|]; try done.
  cbn [fmap option_fmap option_map]. intros Hx Hy. simplify_eq.
  unfold ivt_cell. cbn [masked_binary_cell].
  by rewrite (F64_sign.square_of_equal_abs x' x), (F64_sign.square_of_equal_abs y' y).
Qed.

Lemma item_bcast_equal_abs (a a' : ndarray) (t i j : nat) :
  shape a' = shape a ->
  (forall t i j, abs <$> item a' t i j = abs <$> item a t i j) ->
  abs <$> item_bcast a' t i j = abs <$> item_bcast a t i j.
Proof.
  intros Hs H. unfold item_bcast. rewrite Hs.
  destruct (shape a) as [[nt ni] nj]. apply H.
Qed.

(** The magnitude depends on the absolute values of the two components
    only: fields that agree in shape, in mask and in the absolute value
    of every cell (for instance fluxes of reversed direction) give the
    same magnitude, and fail together when the shapes do not fit. *)
Theorem magnitude_ignores_signs (u u' v v' : ndarray) :
  shape u' = shape u -> shape v' = shape v ->
  (forall t i j, abs <$> item u' t i j = abs <$> item u t i j) ->
  (forall t i j, abs <$> item v' t i j = abs <$> item v t i j) ->
  match ivt_data u v, ivt_data u' v' with
  | Some r, Some r' =>
      shape r = shape r' /\ forall t i j, item r t i j = item r' t i j
  | None, None => True
  | _, _ => False
  end.
Proof.
  intros Hsu Hsv Hu Hv.
  destruct (ivt_data u v) as [r|] eqn:Hr, (ivt_data u' v') as [r'|] eqn:Hr'.
  - split.
    + apply ivt_data_shape in Hr, Hr'. rewrite Hsu, Hsv in Hr'. congruence.
    + intros t i j.
      rewrite (ivt_data_item _ _ _ _ _ _ Hr), (ivt_data_item _ _ _ _ _ _ Hr').
      symmetry. apply ivt_cell_equal_abs; by apply item_bcast_equal_abs.
  - apply ivt_data_shape in Hr.
    destruct (ivt_data_is_Some u' v' (shape r)) as (? & ? & _); [|congruence].
    by rewrite Hsu, Hsv.
  - apply ivt_data_shape in Hr'. rewrite Hsu, Hsv in Hr'.
    destruct (ivt_data_is_Some u v (shape r')) as (? & ? & _); [done|congruence].
  - done.
Qed.

Lemma magnitude_ignores_signs_witness :
  match ivt_data (one_cell 3) (one_cell 4), ivt_data (one_cell (-3)) (one_cell (-4)) with
  | Some r, Some r' =>
      shape r = shape r' /\ forall t i j, item r t i j = item r' t i j
  | None, None => True
  | _, _ => False
  end.
Proof.
  apply (magnitude_ignores_signs
           (one_cell 3) (one_cell (-3)) (one_cell 4) (one_cell (-4)));
    reflexivity.
Defined.

(** The order of the two components never matters, also when their
    shapes differ: the two orders fail together, or give results of the
    same shape with the same cells. *)
Theorem magnitude_commutes_under_broadcasting (u v : ndarray) :
  match ivt_data u v, ivt_data v u with
  | Some r, Some r' =>
      shape r = shape r' /\ forall t i j, item r t i j = item r' t i j
  | None, None => True
  | _, _ => False
  end.
Proof.
  destruct (ivt_data u v) as [r|] eqn:Hr, (ivt_data v u) as [r'|] eqn:Hr'.
  - split.
    + apply ivt_data_shape in Hr, Hr'. rewrite broadcast_shapes_sym in Hr'. congruence.
    + intros t i j.
      rewrite (ivt_data_item _ _ _ _ _ _ Hr), (ivt_data_item _ _ _ _ _ _ Hr').
      apply ivt_cell_comm.
  - apply ivt_data_shape in Hr. rewrite broadcast_shapes_sym in Hr.
    destruct (ivt_data_is_Some v u (shape r) Hr) as (? & ? & _). congruence.
  - apply ivt_data_shape in Hr'. rewrite broadcast_shapes_sym in Hr'.
    destruct (ivt_data_is_Some u v (shape r') Hr') as (? & ? & _). congruence.
  - done.
Qed.

(** A masked cell of a field with a single time step masks the magnitude
    at every time step of the other field it is broadcast to. *)
Theorem masked_cell_is_broadcast_over_time (u v r : ndarray) (t i j : nat) :
  ivt_data u v = Some r ->
  time_steps v = 1 -> in_range (shape v) 0 i j -> item v 0 i j = None ->
  item r t i j = None.
Proof.
  intros Hr Hone Hin Hmask. rewrite (ivt_data_item _ _ _ _ _ _ Hr).
  assert (item_bcast v t i j = None) as ->.
  { unfold item_bcast, time_steps, in_range in *.
    destruct (shape v) as [[nt ni] nj]. cbn in Hone. subst nt.
    destruct Hin as (_ & Hi & Hj). change (bcast 1 t) with 0.
    by rewrite !bcast_lt by done. }
  unfold ivt_cell. by destruct (item_bcast u t i j).
Qed.

Lemma masked_cell_is_broadcast_over_time_witness :
  item (full (3, 1, 1) None) 2 0 0 = None.
Proof.
  apply (masked_cell_is_broadcast_over_time
           (full (3, 1, 1) (Some 3%float)) (full (1, 1, 1) None)
           (full (3, 1, 1) None) 2 0 0).
  - vm_compute. reflexivity.
  - reflexivity.
  - simpl. lia.
  - reflexivity.
Defined.

(** ** The outcome of a run *)

Lemma readNC_no_variable s path v f :
  files s !! path = Some f -> f !! v = None ->
  readNC path v s = (Raise (VariableNotFound v), add_trace s [Open path]).
Proof.
  intros Hf Hv. unfold readNC, emit, read_files.
  unfold mbind, M_bind. cbn [heap files trace]. rewrite Hf. cbn [from_option mret M_ret].
  rewrite Hv. reflexivity.
Qed.

(** With both variables on disk, the run comes to the last cell with the
    two fields read: six new objects in the store, the files as they
    were. *)
Lemma notebook_to_last_cell s fu fv u v :
  files s !! UFLUX_FILE = Some fu -> fu !! "p71.162"%string = Some u ->
  files s !! VFLUX_FILE = Some fv -> fv !! "p72.162"%string = Some v ->
  exists s1 nu nv,
    notebook s = last_cell (length (heap s) + 2) (length (heap s) + 5) s1 /\
    files s1 = files s /\
    field_of (heap s1) (length (heap s) + 2) = Some (nu, nc_data u) /\
    axes_of (heap s1) nu = Some (nc_axes u) /\
    attributes nu = nc_attrs u /\
    field_of (heap s1) (length (heap s) + 5) = Some (nv, nc_data v).
Proof.
  intros Hfu Hu Hfv Hv. unfold notebook.
  rewrite (bind_Return _ _ _ _ _ (check_inputs_ok s ltac:(eauto) ltac:(eauto))).
  set (h := heap s).
  set (nu := {| data := length h; var_id := "p71.162"; axislist := length h + 1;
                attributes := nc_attrs u |}).
  set (nv := {| data := length h + 3; var_id := "p72.162"; axislist := length h + 4;
                attributes := nc_attrs v |}).
  set (h1 := h ++ [ObjArray (nc_data u); ObjAxes (nc_axes u); ObjNCVAR nu;
                   ObjArray (nc_data v); ObjAxes (nc_axes v); ObjNCVAR nv]).
  assert (h1 !! (length h + 2) = Some (ObjNCVAR nu)) as Hlu
    by (unfold h1; by rewrite lookup_app_plus).
  assert (h1 !! (length h) = Some (ObjArray (nc_data u))) as Hdu.
  { unfold h1. by apply list_lookup_middle. }
  assert (h1 !! (length h + 1) = Some (ObjAxes (nc_axes u))) as Hau
    by (unfold h1; by rewrite lookup_app_plus).
  assert (h1 !! (length h + 5) = Some (ObjNCVAR nv)) as Hlv
    by (unfold h1; by rewrite lookup_app_plus).
  assert (h1 !! (length h + 3) = Some (ObjArray (nc_data v))) as Hdv
    by (unfold h1; by rewrite lookup_app_plus).
  assert (h1 !! (length h + 4) = Some (ObjAxes (nc_axes v))) as Hav
    by (unfold h1; by rewrite lookup_app_plus).
  assert (exists tr,
    read_data (add_trace s [Exists UFLUX_FILE; Exists VFLUX_FILE]) =
      (Return (length h + 2, length h + 5),
       {| heap := h1; files := files s; trace := tr |})) as [tr Hread].
  { unfold read_data.
    erewrite bind_Return by (eapply readNC_run; cbn [files add_trace]; eassumption).
    erewrite bind_Return by (eapply readNC_run; cbn [files add_trace]; eassumption).
    cbn [heap add_trace]. fold h. rewrite !length_app. cbn [length].
    rewrite <- !app_assoc. cbn [app]. rewrite <- !Nat.add_assoc. cbn [Nat.add].
    fold nu. fold nv. fold h1.
    rewrite (bind_Return _ _ _ _ _ (print_run _ _)).
    erewrite bind_Return by (eapply info_run; cbn [heap add_trace nu data axislist];
                             eassumption).
    rewrite (bind_Return _ _ _ _ _ (print_run _ _)).
    eexists. reflexivity. }
  rewrite (bind_Return _ _ _ _ _ Hread). cbn beta iota.
  erewrite bind_Return by (eapply print_latitude_run; cbn [heap]; eassumption).
  erewrite bind_Return by (eapply print_longitude_run; cbn [heap add_trace]; eassumption).
  erewrite bind_Return by (eapply print_time_run; cbn [heap add_trace]; eassumption).
  erewrite bind_Return
    by (eapply print_vflux_run; cbn [heap add_trace nv data axislist]; eassumption).
  rewrite !add_trace_add_trace.
  eexists _, nu, nv. split; [reflexivity|]. cbn [heap files add_trace].
  split; [done|]. rewrite !field_of_Some, axes_of_Some. done.
Qed.

Lemma getitem_ma_sqrt (a : ndarray) (k : nat) :
  is_Some (getitem (ma_sqrt a) k) <-> is_Some (getitem a k).
Proof.
  rewrite !getitem_at_time. unfold time_steps. cbn [ma_sqrt shape].
  by destruct (k <? (shape a).1.1)%nat.
Qed.

(** The last cell, from a state where both fields are there: what it
    returns and which files it leaves. *)
Lemma last_cell_effect s uflux vflux nu ua ax nv va :
  field_of (heap s) uflux = Some (nu, ua) -> axes_of (heap s) nu = Some ax ->
  field_of (heap s) vflux = Some (nv, va) ->
  (last_cell uflux vflux s).1 =
    match ivt_data ua va with
    | None => Raise ValueError
    | Some r => figure_outcome (time_axis ax) ua va r
    end /\
  files (last_cell uflux vflux s).2 =
    match ivt_data ua va with
    | None => files s
    | Some r =>
        <[OUTPUTFILE :=
            {[ "ivt"%string :=
                 {| nc_data := r; nc_axes := ax;
                    nc_attrs := ivt_attributes
                      (default ""%string (attributes nu !! "units"%string)) |} ]}]>
          (files s)
    end.
Proof.
  intros Hu Hax Hv. rewrite ivt_data_unfold.
  destruct (add (square ua) (square va)) as [sum|] eqn:Hsum; cbn [mbind option_bind].
  - unfold last_cell.
    rewrite (bind_Return _ _ _ _ _ (compute_ivt_Return _ _ _ _ _ _ _ _ Hu Hv Hsum)).
    set (h' := heap s ++ _).
    assert (field_of h' (length (heap s) + 4) = Some (ivt_NCVAR (heap s) nu, ma_sqrt sum))
      as Hi.
    { apply field_of_Some. unfold h'. cbn [ivt_NCVAR data]. by rewrite !lookup_app_plus. }
    pose proof (field_of_app _ [ObjArray (square ua); ObjArray (square va); ObjArray sum;
                  ObjArray (ma_sqrt sum); ObjNCVAR (ivt_NCVAR (heap s) nu)] _ _ _ Hu) as Hu'.
    pose proof (field_of_app _ [ObjArray (square ua); ObjArray (square va); ObjArray sum;
                  ObjArray (ma_sqrt sum); ObjNCVAR (ivt_NCVAR (heap s) nu)] _ _ _ Hv) as Hv'.
    pose proof (axes_of_app _ [ObjArray (square ua); ObjArray (square va); ObjArray sum;
                  ObjArray (ma_sqrt sum); ObjNCVAR (ivt_NCVAR (heap s) nu)] _ _ Hax) as Hax'.
    fold h' in Hu', Hv', Hax'.
    apply field_of_Some in Hi as Hi'. destruct Hi' as [Hi1 Hi2].
    erewrite bind_Return.
    2: { eapply save_ivt_run; cbn [heap set_heap]; [exact Hi1|exact Hi2|].
         cbn [ivt_NCVAR axislist]. by apply axes_of_Some. }
    erewrite plot_figure_run; cbn [heap]; [|eassumption..].
    unfold figure_outcome.
    destruct (time_axis ax !! idx), (getitem ua idx), (getitem va idx),
      (getitem (ma_sqrt sum) idx); split; reflexivity.
  - unfold last_cell.
    erewrite bind_Raise by (by eapply compute_ivt_ValueError).
    split; reflexivity.
Qed.

Lemma notebook_run (s : state) :
  (notebook s).1 = run_outcome s /\ files (notebook s).2 = run_files s.
Proof.
  unfold run_outcome, run_files, inputs_of.
  destruct (files s !! UFLUX_FILE) as [fu|] eqn:Hfu; cbn [mbind option_bind].
  2: { unfold notebook. erewrite bind_Raise by (by apply check_inputs_no_u). done. }
  destruct (files s !! VFLUX_FILE) as [fv|] eqn:Hfv.
  2: { unfold notebook. erewrite bind_Raise by (by apply check_inputs_no_v).
       by destruct (fu !! "p71.162"%string). }
  destruct (fu !! "p71.162"%string) as [u|] eqn:Hu; cbn [mbind option_bind].
  2: { unfold notebook.
       rewrite (bind_Return _ _ _ _ _ (check_inputs_ok s ltac:(eauto) ltac:(eauto))).
       erewrite bind_Raise
         by (unfold read_data; apply bind_Raise; by eapply readNC_no_variable).
       done. }
  destruct (fv !! "p72.162"%string) as [v|] eqn:Hv; cbn [mbind option_bind].
  2: { unfold notebook.
       rewrite (bind_Return _ _ _ _ _ (check_inputs_ok s ltac:(eauto) ltac:(eauto))).
       erewrite bind_Raise.
       2: { unfold read_data.
            erewrite bind_Return
              by (eapply readNC_run; cbn [files add_trace]; eassumption).
            apply bind_Raise. by eapply readNC_no_variable. }
       done. }
  destruct (notebook_to_last_cell s fu fv u v Hfu Hu Hfv Hv)
    as (s1 & nu & nv & -> & Hfiles & Hfu1 & Hax1 & Hattrs & Hfv1).
  destruct (last_cell_effect _ _ _ _ _ _ _ _ Hfu1 Hax1 Hfv1) as [-> ->].
  rewrite Hfiles, Hattrs. unfold ivt_variable.
  by destruct (ivt_data (nc_data u) (nc_data v)).
Qed.






Lemma paths_differ :
  UFLUX_FILE <> OUTPUTFILE /\ VFLUX_FILE <> OUTPUTFILE /\ UFLUX_FILE <> VFLUX_FILE.
Proof. repeat split; discriminate. Qed.

Lemma run_files_other (s : state) (path : string) :
  path <> OUTPUTFILE -> run_files s !! path = files s !! path.
Proof.
  intros Hp. unfold run_files.
  destruct (inputs_of s) as [[u v]|]; [|done].
  destruct (ivt_data (nc_data u) (nc_data v)); [|done].
  by rewrite lookup_insert_ne.
Qed.

(** The only file a run can create or change is the output file: every
    other path holds after the run what it held before, whatever the
    outcome; so the two input files are never modified. *)
Theorem notebook_changes_only_the_output_file (s : state) :
  (forall path, path <> OUTPUTFILE ->
     files (notebook s).2 !! path = files s !! path) /\
  files (notebook s).2 !! UFLUX_FILE = files s !! UFLUX_FILE /\
  files (notebook s).2 !! VFLUX_FILE = files s !! VFLUX_FILE.
Proof.
  rewrite (proj2 (notebook_run s)).
  destruct paths_differ as (Hu & Hv & _).
  split; [|split]; [intros path Hp|..]; by apply run_files_other.
Qed.

Lemma run_outcome_inputs (s s' : state) :
  files s' !! UFLUX_FILE = files s !! UFLUX_FILE ->
  files s' !! VFLUX_FILE = files s !! VFLUX_FILE ->
  run_outcome s' = run_outcome s /\ inputs_of s' = inputs_of s.
Proof. intros Hu Hv. unfold run_outcome, inputs_of. by rewrite Hu, Hv. Qed.

(** Running the notebook again, in the state the first run left, gives
    the same outcome and leaves the files as the first run left them: the
    output file is overwritten with the same content. *)
Theorem notebook_rerun (s : state) :
  (notebook (notebook s).2).1 = (notebook s).1 /\
  files (notebook (notebook s).2).2 = files (notebook s).2.
Proof.
  destruct paths_differ as (Hpu & Hpv & _).
  destruct (run_outcome_inputs s (notebook s).2) as [Hout Hin].
  { rewrite (proj2 (notebook_run s)). by apply run_files_other. }
  { rewrite (proj2 (notebook_run s)). by apply run_files_other. }
  rewrite !(proj1 (notebook_run _)), !(proj2 (notebook_run _)).
  split; [exact Hout|].
  unfold run_files at 1. rewrite Hin. rewrite (proj2 (notebook_run s)).
  unfold run_files.
  destruct (inputs_of s) as [[u v]|]; [|done].
  destruct (ivt_data (nc_data u) (nc_data v)); [|done].
  apply insert_insert_eq.
Qed.

(** ** The order of reading *)

(** The u field is read before the v field, and nothing is printed before
    both are read.  When the u file lacks the variable [p71.162] the run
    ends after opening the u file alone; when the u file is fine and the
    v file lacks [p72.162], it ends after opening both, with the u field
    already in the store. *)
Theorem fields_are_read_u_first (s : state) (fu fv : gmap string ncvariable) :
  files s !! UFLUX_FILE = Some fu -> files s !! VFLUX_FILE = Some fv ->
  (fu !! "p71.162"%string = None ->
   notebook s =
     (Raise (VariableNotFound "p71.162"),
      add_trace s [Exists UFLUX_FILE; Exists VFLUX_FILE; Open UFLUX_FILE])) /\
  (forall u, fu !! "p71.162"%string = Some u -> fv !! "p72.162"%string = None ->
   notebook s =
     (Raise (VariableNotFound "p72.162"),
      {| heap := heap s ++
                 [ObjArray (nc_data u); ObjAxes (nc_axes u);
                  ObjNCVAR {| data := length (heap s); var_id := "p71.162";
                              axislist := length (heap s) + 1;
                              attributes := nc_attrs u |}];
         files := files s;
         trace := trace s ++ [Exists UFLUX_FILE; Exists VFLUX_FILE;
                              Open UFLUX_FILE; Open VFLUX_FILE] |})).
Proof.
  intros Hfu Hfv. split.
  - intros Hu. unfold notebook.
    rewrite (bind_Return _ _ _ _ _ (check_inputs_ok s ltac:(eauto) ltac:(eauto))).
    erewrite bind_Raise
      by (unfold read_data; apply bind_Raise; by eapply readNC_no_variable).
    by rewrite add_trace_add_trace.
  - intros u Hu Hv. unfold notebook.
    rewrite (bind_Return _ _ _ _ _ (check_inputs_ok s ltac:(eauto) ltac:(eauto))).
    erewrite bind_Raise.
    2: { unfold read_data.
         erewrite bind_Return
           by (eapply readNC_run; cbn [files add_trace]; eassumption).
         apply bind_Raise. by eapply readNC_no_variable. }
    unfold add_trace. cbn [heap files trace]. by rewrite <- !app_assoc.
Qed.

Lemma fields_are_read_u_first_witness :
  let s := {| heap := []; files := {[ UFLUX_FILE := ∅; VFLUX_FILE := ∅ ]};
              trace := [] |} in
  notebook s =
    (Raise (VariableNotFound "p71.162"),
     add_trace s [Exists UFLUX_FILE; Exists VFLUX_FILE; Open UFLUX_FILE]).
Proof.
  refine (proj1 (fields_are_read_u_first
                   {| heap := []; files := {[ UFLUX_FILE := ∅; VFLUX_FILE := ∅ ]};
                      trace := [] |} ∅ ∅ _ _) _);
    vm_compute; reflexivity.
Defined.

(** ** What the magnitude computation does not do *)

Section no_io.
Context {A B : Type}.

Lemma keeps_io_bind (m : M A) (f : A -> M B) :
  keeps_io m -> (forall a, keeps_io (f a)) -> keeps_io (m ≫= f).
Proof.
  intros Hm Hf s r s' [(a & s1 & H1 & H2)|(e & H1 & _)]%bind_inv.
  - destruct (Hm _ _ _ H1) as [<- <-]. by eapply Hf.
  - by eapply Hm.
Qed.

Lemma keeps_io_ret (a : A) : keeps_io (mret a : M A).
Proof. intros s r s' H. unfold mret, M_ret in H. by simplify_eq. Qed.

Lemma keeps_io_raise (e : exn) : keeps_io (raise e : M A).
Proof. intros s r s' H. unfold raise in H. by simplify_eq. Qed.

Lemma keeps_io_from_option (e : exn) (o : option A) : keeps_io (from_option e o).
Proof. destruct o; [apply keeps_io_ret | apply keeps_io_raise]. Qed.
End no_io.

Lemma keeps_io_load l : keeps_io (load l).
Proof. intros s r s' H. unfold load in H. by destruct (heap s !! l); simplify_eq. Qed.

Lemma keeps_io_alloc o : keeps_io (alloc o).
Proof. intros s r s' H. unfold alloc in H. by simplify_eq. Qed.

#[local] Hint Resolve keeps_io_ret keeps_io_raise keeps_io_from_option
  keeps_io_load keeps_io_alloc : frame.

Ltac no_io :=
  repeat first
    [ progress intros
    | apply keeps_io_bind
    | solve [auto with frame]
    | case_match ].

Lemma keeps_io_load_array l : keeps_io (load_array l).
Proof. unfold load_array. no_io. Qed.

Lemma keeps_io_load_NCVAR l : keeps_io (load_NCVAR l).
Proof. unfold load_NCVAR. no_io. Qed.

#[local] Hint Resolve keeps_io_load_array keeps_io_load_NCVAR : frame.

Lemma keeps_io_compute_ivt uflux vflux : keeps_io (compute_ivt uflux vflux).
Proof.
  unfold compute_ivt, attr_data, attr_axislist, getattr_units, np_multiply, np_add,
    np_ma_sqrt, funcs_NCVAR.
  no_io.
Qed.

(** Computing the magnitude and building the derived field is silent: it
    writes no file and adds nothing to the trace (no check, no open, no
    print, no drawing), whether it returns or raises. *)
Theorem compute_ivt_does_no_input_or_output
    (s : state) (uflux vflux : loc) (r : outcome loc) (s' : state) :
  compute_ivt uflux vflux s = (r, s') ->
  files s' = files s /\ trace s' = trace s.
Proof. apply keeps_io_compute_ivt. Qed.

Lemma compute_ivt_does_no_input_or_output_witness :
  let s := loaded (full (2, 1, 1) (Some 3%float)) (full (3, 1, 1) (Some 4%float)) in
  files (compute_ivt 2 5 s).2 = files s /\ trace (compute_ivt 2 5 s).2 = trace s.
Proof.
  apply (compute_ivt_does_no_input_or_output
           (loaded (full (2, 1, 1) (Some 3%float)) (full (3, 1, 1) (Some 4%float)))
           2 5 (compute_ivt 2 5 (loaded (full (2, 1, 1) (Some 3%float))
                                        (full (3, 1, 1) (Some 4%float)))).1).
  apply surjective_pairing.
Defined.

(** The derived field and its data array are new objects: no field that
    existed before the computation has the data array of the derived
    field as its own, while the axis list is the one of [uflux]. *)
Theorem ivt_data_array_is_new (s : state) (uflux vflux ivt : loc) (s' : state) :
  compute_ivt uflux vflux s = (Return ivt, s') ->
  exists ni a,
    field_of (heap s') ivt = Some (ni, a) /\
    heap s !! ivt = None /\ heap s !! data ni = None /\
    (forall l v b, field_of (heap s) l = Some (v, b) -> data v <> data ni) /\
    (exists nu, heap s !! uflux = Some (ObjNCVAR nu) /\ axislist ni = axislist nu).
Proof.
  intros (nu & ua & nv & va & sum & Hu & _ & _ & -> & ->)%compute_ivt_inv.
  exists (ivt_NCVAR (heap s) nu), (ma_sqrt sum).
  split; [|split; [|split; [|split]]].
  - apply field_of_Some. cbn [heap set_heap ivt_NCVAR data].
    by rewrite !lookup_app_plus.
  - apply lookup_ge_None. lia.
  - apply lookup_ge_None. cbn [ivt_NCVAR data]. lia.
  - intros l v b [_ Hd%lookup_lt_Some]%field_of_Some. cbn [ivt_NCVAR data]. lia.
  - apply field_of_Some in Hu as [Hu _]. by exists nu.
Qed.

Lemma ivt_data_array_is_new_witness :
  let s := loaded (one_cell 3) (one_cell 4) in
  exists ni a,
    field_of (heap (compute_ivt 2 5 s).2) 10 = Some (ni, a) /\
    heap s !! 10%nat = None /\ heap s !! data ni = None /\
    (forall l v b, field_of (heap s) l = Some (v, b) -> data v <> data ni) /\
    (exists nu, heap s !! 2%nat = Some (ObjNCVAR nu) /\ axislist ni = axislist nu).
Proof.
  apply (ivt_data_array_is_new (loaded (one_cell 3) (one_cell 4)) 2 5 10).
  vm_compute. reflexivity.
Defined.


(** ** No overflow for values of moderate size *)

Module F64_range.
Import F64 F64_facts.
Local Open Scope Z_scope.

Lemma small_mono (k k' : Z) (x : spec_float) : k <= k' -> small k x -> small k' x.
Proof. intros Hk. destruct x as [[]|[]| |[] m e]; try done. cbn. lia. Qed.

Lemma Zdigits2_nonneg (N : Z) : 0 <= Zdigits2 N.
Proof. destruct N; cbn; lia. Qed.

Lemma Zdigits2_spec (N : Z) : 0 <= N -> N < 2 ^ Zdigits2 N.
Proof.
  intros HN. destruct N as [|p|p]; try lia; cbn [Zdigits2].
  - simpl. lia.
  - apply digits2_pos_spec.
Qed.

Lemma Zdigits2_le (N j : Z) : 0 <= N < 2 ^ j -> 0 <= j -> Zdigits2 N <= j.
Proof.
  intros [HN Hlt] Hj. destruct N as [|p|p]; try lia; cbn [Zdigits2]; [lia|].
  pose proof (digits2_pos_spec p) as [Hlo _].
  assert (Zpos (digits2_pos p) - 1 < j); [|lia].
  apply (Z.pow_lt_mono_r_iff 2); lia.
Qed.

Lemma iter_shr_1_m (k : positive) (mrs : shr_record) :
  0 <= shr_m mrs ->
  shr_m (SpecFloat.iter_pos shr_1 k mrs) = shr_m mrs / 2 ^ Zpos k.
Proof.
  intros Hm. rewrite iter_pos_nat, <- (positive_nat_Z k).
  destruct (Pos2Nat.is_succ k) as [n ->].
  induction n as [|n IH].
  - cbn [Nat.iter]. destruct mrs as [m r s]. cbn [shr_m] in *.
    rewrite shr_1_spec by done. cbn [shr_m]. by rewrite Z.pow_1_r.
  - change (Nat.iter (S (S n)) shr_1 mrs)
      with (shr_1 (Nat.iter (S n) shr_1 mrs)).
    set (x := Nat.iter (S n) shr_1 mrs) in *.
    assert (0 <= shr_m x) as Hx.
    { rewrite IH. apply Z.div_pos; [done|]. apply Z.pow_pos_nonneg; lia. }
    destruct x as [m r s]. cbn [shr_m] in *. rewrite shr_1_spec by done.
    cbn [shr_m]. rewrite IH, (Nat2Z.inj_succ (S n)), Z.pow_succ_r by lia.
    rewrite Z.div_div by (try apply Z.pow_pos_nonneg; lia).
    f_equal. lia.
Qed.

Lemma shr_spec (mrs : shr_record) (e n : Z) :
  0 <= shr_m mrs ->
  (shr mrs e n).2 = e + Z.max n 0 /\
  shr_m (shr mrs e n).1 = shr_m mrs / 2 ^ Z.max n 0.
Proof.
  intros Hm. destruct n as [|p|p]; cbn [shr fst snd].
  - cbn. split; [lia|]. by rewrite Z.div_1_r.
  - rewrite iter_shr_1_m by done. split; [lia|]. f_equal.
  - cbn. split; [lia|]. by rewrite Z.div_1_r.
Qed.

Lemma shr_fexp_spec (N e : Z) (l : location) :
  0 <= N ->
  let E := Z.max e (fexp prec emax (Zdigits2 N + e)) in
  (shr_fexp prec emax N e l).2 = E /\
  shr_m (shr_fexp prec emax N e l).1 = N / 2 ^ (E - e).
Proof.
  intros HN E. unfold shr_fexp.
  assert (shr_m (shr_record_of_loc N l) = N) as Hm by (by destruct l as [|[]]).
  destruct (shr_spec (shr_record_of_loc N l) e
              (fexp prec emax (Zdigits2 N + e) - e)) as [H1 H2]; [lia|].
  rewrite H1, H2, Hm. unfold E. split; [lia|]. f_equal. f_equal. lia.
Qed.

Lemma round_nearest_even_bounds (m : Z) (l : location) :
  m <= round_nearest_even m l <= m + 1.
Proof. destruct l as [|[]]; cbn; try destruct (Z.even m); lia. Qed.

Lemma pow2_split (a b : Z) : 0 <= a -> 0 <= b -> 2 ^ (a + b) = 2 ^ a * 2 ^ b.
Proof. intros. by apply Z.pow_add_r. Qed.

Lemma div_pow2_lt (M a b : Z) :
  0 <= M < 2 ^ (a + b) -> 0 <= a -> 0 <= b -> M / 2 ^ a < 2 ^ b.
Proof.
  intros [H0 Hlt] Ha Hb. apply Z.div_lt_upper_bound.
  - apply Z.pow_pos_nonneg; lia.
  - by rewrite <- pow2_split.
Qed.

Lemma div_pow2_zero (M a c : Z) :
  0 <= M < 2 ^ c -> 0 <= c <= a -> M / 2 ^ a = 0.
Proof.
  intros [H0 Hlt] Hc. apply Z.div_small. split; [done|].
  eapply Z.lt_le_trans; [exact Hlt|]. apply Z.pow_le_mono_r; lia.
Qed.

(** The final rounding of a number below 2^1023 whose exponent is in
    range gives zero or a finite number, at most one binade higher. *)
Lemma binary_round_aux_small (N e : Z) (l : location) :
  0 < N -> e <= 970 -> Zdigits2 N + e <= 1023 ->
  small (Z.max (Zdigits2 N + e) (-1074) + 1)
        (binary_round_aux prec emax false N e l).
Proof.
  intros HN He Hk. unfold binary_round_aux.
  destruct (shr_fexp_spec N e l ltac:(lia)) as [HE1 Hm1].
  destruct (shr_fexp prec emax N e l) as [mrs' e'] eqn:Hshr1.
  cbn [fst snd] in HE1, Hm1. rewrite <- HE1 in Hm1.
  set (d := Zdigits2 N) in *.
  assert (1 <= d) as Hd.
  { unfold d. destruct N; try lia. cbn. lia. }
  pose proof (Zdigits2_spec N ltac:(lia)) as HNd. fold d in HNd.
  set (B := Z.max (d + e) (-1074) + 1).
  set (M := round_nearest_even (shr_m mrs') (loc_of_shr_record mrs')).
  pose proof (round_nearest_even_bounds (shr_m mrs') (loc_of_shr_record mrs')) as HM.
  fold M in HM.
  assert (e' <= 970 /\ e <= e' /\ e' <= B - 1) as (He'1 & He'2 & He'3).
  { rewrite HE1. unfold B, fexp, emin, prec, emax. lia. }
  assert (0 <= shr_m mrs' < 2 ^ (B - 1 - e')) as Hm1b.
  { rewrite Hm1. split.
    - apply Z.div_pos; [lia|]. apply Z.pow_pos_nonneg; lia.
    - apply div_pow2_lt; try lia. split; [lia|].
      eapply Z.lt_le_trans; [exact HNd|]. apply Z.pow_le_mono_r; [lia|].
      unfold B. lia. }
  assert (0 <= M < 2 ^ (B - e')) as HMb.
  { split; [lia|]. replace (B - e') with (Z.succ (B - 1 - e')) by lia.
    rewrite Z.pow_succ_r by lia.
    assert (0 < 2 ^ (B - 1 - e')) by (apply Z.pow_pos_nonneg; lia). lia. }
  assert (Zdigits2 M <= B - e') as HdM by (apply Zdigits2_le; lia).
  destruct (shr_fexp_spec M e' loc_Exact ltac:(lia)) as [HE2 Hm2].
  destruct (shr_fexp prec emax M e' loc_Exact) as [mrs'' e''] eqn:Hshr2.
  cbn [fst snd] in HE2, Hm2. rewrite <- HE2 in Hm2.
  pose proof (Zdigits2_nonneg M) as HdM0.
  assert (e' <= e'' /\ e'' <= 971) as [He''1 He''2].
  { rewrite HE2. unfold fexp, emin, prec, emax. unfold B in *. lia. }
  assert (shr_m mrs'' = 0 \/ (0 < shr_m mrs'' < 2 ^ (B - e'') /\ 0 <= B - e''))
    as Hm2b.
  { rewrite Hm2. destruct (Z.le_gt_cases e'' B) as [Hle|Hgt].
    - set (q := M / 2 ^ (e'' - e')). set (P := 2 ^ (B - e'')).
      assert (0 <= q).
      { apply Z.div_pos; [lia|]. apply Z.pow_pos_nonneg; lia. }
      assert (q < P).
      { apply div_pow2_lt; try lia.
        replace (e'' - e' + (B - e'')) with (B - e') by lia. lia. }
      clearbody q P. lia.
    - left. apply (div_pow2_zero _ _ (B - e')); lia. }
  destruct (shr_m mrs'') as [|m2|m2] eqn:Hm2v; cbn [small].
  - done.
  - destruct Hm2b as [?|[Hm2b HB]]; [lia|].
    unfold prec, emax. destruct (Z.leb_spec e'' (1024 - 53)); [|lia].
    cbn [small]. split; [|lia].
    assert (Zdigits2 (Zpos m2) <= B - e'') as Hdig by (apply Zdigits2_le; lia).
    cbn [Zdigits2] in Hdig. fold B. lia.
  - destruct Hm2b as [?|[? ?]]; lia.
Qed.

Lemma iter_xO (m d : positive) : Zpos (Pos.iter xO m d) = Zpos m * 2 ^ Zpos d.
Proof.
  induction d as [|d IH] using Pos.peano_ind.
  - cbn [Pos.iter]. rewrite Z.pow_1_r. lia.
  - rewrite Pos.iter_succ, Pos2Z.inj_xO, IH, Pos2Z.inj_succ, Z.pow_succ_r by lia.
    lia.
Qed.

Lemma shl_align_spec (m : positive) (e e0 : Z) :
  (shl_align m e e0).2 = Z.min e e0 /\
  Zpos (shl_align m e e0).1 = Zpos m * 2 ^ (e - Z.min e e0).
Proof.
  unfold shl_align. destruct (e0 - e) as [|p|p] eqn:Hd; cbn [fst snd].
  - split; [lia|]. replace (e - Z.min e e0) with 0 by lia. lia.
  - split; [lia|]. replace (e - Z.min e e0) with 0 by lia. lia.
  - split; [lia|]. rewrite iter_xO. f_equal. f_equal. lia.
Qed.

Lemma scaled_lt (m : positive) (s k : Z) :
  0 <= s -> Zpos (digits2_pos m) + s <= k -> Zpos m * 2 ^ s < 2 ^ k.
Proof.
  intros Hs Hk. pose proof (digits2_pos_spec m) as [_ Hm].
  assert (0 < 2 ^ s) by (apply Z.pow_pos_nonneg; lia).
  apply (Z.lt_le_trans _ (2 ^ (Zpos (digits2_pos m) + s))).
  - rewrite pow2_split by lia. nia.
  - apply Z.pow_le_mono_r; lia.
Qed.

(** The rounded square of a number below 2^510 is below 2^1021. *)
Lemma SFmul_self_small (s : bool) (m : positive) (e : Z) :
  Zpos (digits2_pos m) + e <= 510 -> e <= 458 ->
  small 1021 (SFmul prec emax (S754_finite s m e) (S754_finite s m e)).
Proof.
  intros Hd He. cbn [SFmul]. rewrite Bool.xorb_nilpotent.
  set (dm := Zpos (digits2_pos m)) in *.
  assert (Zdigits2 (Zpos (m * m)) <= dm + dm) as Hdig.
  { apply Zdigits2_le; [|lia]. split; [lia|].
    pose proof (digits2_pos_spec m) as [_ Hm]. fold dm in Hm.
    rewrite pow2_split, Pos2Z.inj_mul by lia. nia. }
  eapply small_mono; [|apply binary_round_aux_small]; lia.
Qed.

(** The rounded sum of two numbers below 2^1021 that are not negative is
    below 2^1023. *)
Lemma SFadd_small (x y : spec_float) :
  small 1021 x -> small 1021 y -> small 1023 (SFadd prec emax x y).
Proof.
  destruct x as [[]|[]| |[] mx ex]; try done;
    destruct y as [[]|[]| |[] my ey]; try done; intros Hx Hy.
  - cbn in *. lia.
  - cbn in *. lia.
  - destruct Hx as [Hx Hex], Hy as [Hy Hey].
    cbn [SFadd cond_Zopp]. set (ez := Z.min ex ey).
    destruct (shl_align_spec mx ex ez) as [_ Hmx].
    destruct (shl_align_spec my ey ez) as [_ Hmy].
    replace (Z.min ex ez) with ez in Hmx by lia.
    replace (Z.min ey ez) with ez in Hmy by lia.
    set (a := (shl_align mx ex ez).1) in *.
    set (b := (shl_align my ey ez).1) in *.
    change (Zpos a + Zpos b) with (Zpos (a + b)). cbn [binary_normalize].
    assert (Zpos (a + b) < 2 ^ (1022 - ez)) as Hsum.
    { rewrite Pos2Z.inj_add, Hmx, Hmy.
      replace (1022 - ez) with (Z.succ (1021 - ez)) by lia.
      rewrite Z.pow_succ_r by lia.
      pose proof (scaled_lt mx (ex - ez) (1021 - ez)).
      pose proof (scaled_lt my (ey - ez) (1021 - ez)). lia. }
    assert (Zdigits2 (Zpos (a + b)) <= 1022 - ez) as Hdig
      by (apply Zdigits2_le; lia).
    cbn [Zdigits2] in Hdig.
    unfold binary_round.
    set (f := fexp prec emax (Zpos (digits2_pos (a + b)) + ez)).
    destruct (shl_align_spec (a + b) ez f) as [He' Hm'].
    destruct (shl_align (a + b) ez f) as [mz ez'] eqn:Hsh.
    cbn [fst snd] in He', Hm'. rewrite <- He' in Hm'.
    assert (f <= 969) as Hf by (unfold f, fexp, emin, prec, emax; lia).
    assert (-1074 <= f) as Hf' by (unfold f, fexp, emin, prec, emax; lia).
    assert (Zdigits2 (Zpos mz) <= 1022 - ez') as Hdz.
    { apply Zdigits2_le; [|lia]. split; [lia|]. rewrite Hm'.
      assert (0 < 2 ^ (ez - ez')) by (apply Z.pow_pos_nonneg; lia).
      replace (1022 - ez') with ((1022 - ez) + (ez - ez')) by lia.
      rewrite pow2_split by lia. nia. }
    eapply small_mono; [|apply binary_round_aux_small]; lia.
Qed.

(** The square root of a number below 2^1023 that is not negative is
    finite or zero. *)
Lemma SFsqrt_small (x : spec_float) :
  small 1023 x -> small 1023 (SFsqrt prec emax x).
Proof.
  destruct x as [[]|[]| |[] m e]; try done. intros [Hd He].
  cbn [SFsqrt]. unfold SFsqrt_core_binary. cbn [Zdigits2].
  set (d := Zpos (digits2_pos m)) in *.
  set (e' := Z.min (fexp prec emax (Z.div2 (d + e + 1))) (Z.div2 e)).
  assert (2 * Z.div2 e <= e) as Hdiv2.
  { rewrite Z.div2_div. Z.div_mod_to_equations. lia. }
  assert (0 <= e - 2 * e') as Hs by (unfold e'; lia).
  set (m' := match e - 2 * e' with
             | 0 => Zpos m
             | Zpos _ => Z.shiftl (Zpos m) (e - 2 * e')
             | Zneg _ => 0
             end).
  assert (m' = Zpos m * 2 ^ (e - 2 * e')) as Hm'.
  { unfold m'. destruct (e - 2 * e') as [|p|p] eqn:Hse; try lia.
    by rewrite Z.shiftl_mul_pow2. }
  clearbody m'.
  assert (0 < 2 ^ (e - 2 * e')) as Hpow by (apply Z.pow_pos_nonneg; lia).
  assert (0 < m') as Hm'0 by (rewrite Hm'; lia).
  pose proof (Z.sqrtrem_spec m' ltac:(lia)) as Hspec.
  destruct (Z.sqrtrem m') as [q r]. destruct Hspec as [Hqr Hr].
  set (D := Z.div2 (d + (e - 2 * e') + 1)).
  assert (d + (e - 2 * e') <= 2 * D /\ D + e' <= 512 /\ 0 <= D) as (HD1 & HD2 & HD3).
  { unfold D. rewrite Z.div2_div.
    assert (1 <= d) by (unfold d; lia).
    Z.div_mod_to_equations. lia. }
  assert (0 < q) as Hq by nia.
  assert (q < 2 ^ D) as HqD.
  { destruct (Z.lt_ge_cases q (2 ^ D)) as [|Hge]; [done|]. exfalso.
    assert (m' < 2 ^ (D + D)) as Hlt.
    { rewrite Hm'. apply scaled_lt; [lia|]. fold d. lia. }
    rewrite pow2_split in Hlt by lia.
    assert (0 < 2 ^ D) by (apply Z.pow_pos_nonneg; lia). nia. }
  assert (Zdigits2 q <= D) as Hdq by (apply Zdigits2_le; lia).
  assert (e' <= 485) as He'.
  { assert (Z.div2 e <= 485) by (rewrite Z.div2_div; Z.div_mod_to_equations; lia).
    unfold e'. lia. }
  eapply small_mono; [|apply binary_round_aux_small]; lia.
Qed.

Lemma small_is_finite (k : Z) (x : float) :
  small k (Prim2SF x) -> is_finite x = true.
Proof.
  intros Hs. unfold is_finite, is_nan, is_infinity.
  rewrite !FloatAxioms.eqb_spec, abs_spec, Prim2SF_infinity.
  destruct (Prim2SF x) as [[]|[]| |[] m e]; try done.
  unfold SFeqb. cbn [SFabs SFcompare].
  by rewrite Z.compare_refl, Pos.compare_cont_refl.
Qed.

Lemma Prim2SF_bound : Prim2SF 0x1p+510 = S754_finite false 4503599627370496 458.
Proof. vm_compute. reflexivity. Qed.

Lemma below_bound (x : float) :
  (abs x <? 0x1p+510)%float = true ->
  match Prim2SF x with
  | S754_zero _ => True
  | S754_finite _ m e => Zpos (digits2_pos m) + e <= 510 /\ e <= 458
  | _ => False
  end.
Proof.
  intros Hhi. rewrite ltb_spec, abs_spec, Prim2SF_bound in Hhi.
  pose proof (Prim2SF_valid x) as Hv.
  destruct (Prim2SF x) as [s|s| |s m e].
  - exact I.
  - discriminate Hhi.
  - discriminate Hhi.
  - cbn [SFabs] in Hhi. unfold SFltb in Hhi. cbn [SFcompare] in Hhi.
    cbn [valid_binary] in Hv. unfold bounded, canonical_mantissa in Hv.
    apply andb_true_iff in Hv as [Hc _]. apply Z.eqb_eq in Hc.
    unfold fexp, emin, prec, emax in Hc.
    assert (e <= 458) as He.
    { destruct (Z.compare_spec e 458); [lia|lia|discriminate Hhi]. }
    split; [|exact He].
    destruct (Z.eq_dec e 458) as [->|]; [|lia].
    rewrite Z.compare_refl in Hhi.
    pose proof (Pos.compare_spec m 4503599627370496) as Hcmp.
    unfold Pos.compare in Hcmp. revert Hhi.
    destruct Hcmp as [?|Hlt|?]; intros Hhi;
      [discriminate Hhi| |discriminate Hhi].
    apply Pos2Z.pos_lt_pos in Hlt.
    assert (Zdigits2 (Zpos m) <= 52) as Hd.
    { apply Zdigits2_le; [|lia]. rewrite pow2_52. clear -Hlt. lia. }
    cbn [Zdigits2] in Hd. clear -Hd. lia.
Qed.

Lemma sqrt_sum_of_squares_is_finite (x y : float) :
  (abs x <? 0x1p+510)%float = true -> (abs y <? 0x1p+510)%float = true ->
  is_finite (sqrt (x * x + y * y)) = true.
Proof.
  intros Hx Hy. apply below_bound in Hx, Hy.
  apply (small_is_finite 1023).
  rewrite sqrt_spec, add_spec, !mul_spec.
  apply SFsqrt_small, SFadd_small.
  - destruct (Prim2SF x) as [[]|s| |s m e]; try done.
    apply SFmul_self_small; apply Hx.
  - destruct (Prim2SF y) as [[]|s| |s m e]; try done.
    apply SFmul_self_small; apply Hy.
Qed.

End F64_range.

(** Where both fields hold a value below 2^510 in absolute value (about
    3.35e153), the cell of the magnitude is not masked and holds the
    rounded square root of the rounded sum of the rounded squares:
    neither the squares nor their sum overflow, so the only masked cells
    of such fields are those masked in an input. *)
Theorem moderate_values_are_not_masked
    (u v r : ndarray) (t i j : nat) (x y : float) :
  ivt_data u v = Some r ->
  item_bcast u t i j = Some x -> item_bcast v t i j = Some y ->
  (abs x <? 0x1p+510)%float = true -> (abs y <? 0x1p+510)%float = true ->
  item r t i j = Some (sqrt (x * x + y * y))%float.
Proof.
  intros Hr Hu Hv Hx Hy.
  rewrite (ivt_data_item _ _ _ _ _ _ Hr), Hu, Hv, ivt_cell_Some.
  by rewrite F64_range.sqrt_sum_of_squares_is_finite.
Qed.

Lemma moderate_values_are_not_masked_witness :
  item (one_cell 5) 0 0 0 = Some (sqrt (3 * 3 + 4 * 4))%float.
Proof.
  apply (moderate_values_are_not_masked
           (one_cell 3) (one_cell 4) (one_cell 5) 0 0 0 3 4).
  - vm_compute. reflexivity.
  - reflexivity.
  - reflexivity.
  - vm_compute. reflexivity.
  - vm_compute. reflexivity.
Defined.
